(** * factory/alchemy.py: the SQLAlchemy adapter of the factory engine

    A shallow embedding of [SQLAlchemyOptions] and [SQLAlchemyModelFactory]
    (src/factory/alchemy.py).  The ORM session and the model constructor are
    external collaborators: they are an interface ([ORM]) whose methods may
    return or raise, and every call the adapter issues is recorded, with its
    outcome, in the order it happens. *)

From stdpp Require Import gmap strings list fin_maps.

Local Open Scope string_scope.
Local Open Scope Z_scope.
Local Open Scope list_scope.

(** ** Python values *)

(** The values that reach this module as option values and keyword
    arguments: [None], booleans, integers, strings and tuples. *)
#[local] Set Warnings "-register-all".
Inductive pyval : Type :=
| VNone
| VBool (b : bool)
| VInt (n : Z)
| VStr (s : string)
| VTuple (items : list pyval).

(** Python's [==] on these values.  A boolean is an integer ([True == 1]);
    values of different kinds are otherwise unequal. *)
Fixpoint py_eq (a b : pyval) {struct a} : bool :=
  match a, b with
  | VNone, VNone => true
  | VBool x, VBool y => Bool.eqb x y
  | VBool x, VInt n => (if x then 1 else 0) =? n
  | VInt n, VBool x => n =? (if x then 1 else 0)
  | VInt m, VInt n => m =? n
  | VStr s, VStr t => String.eqb s t
  | VTuple l, VTuple k =>
      (fix all2 (l k : list pyval) {struct l} : bool :=
         match l, k with
         | [], [] => true
         | x :: l', y :: k' => py_eq x y && all2 l' k'
         | _, _ => false
         end) l k
  | _, _ => false
  end.

(** [value in seq] on a list: some element is equal to [value]. *)
Definition py_in (value : pyval) (seq : list pyval) : bool :=
  existsb (py_eq value) seq.

(** Keyword arguments, [**kwargs]: a dict from names to values. *)
Abbreviation kwargs := (gmap string pyval).

(** [if d:] on a dict: true when it has an entry. *)
Definition dict_truthy (d : kwargs) : bool :=
  match map_to_list d with
  | [] => false
  | _ :: _ => true
  end.

(** ** Exceptions and results *)

Inductive exn : Type :=
| TypeError (meta : string) (valid : list pyval) (got : pyval)
    (* "%s.sqlalchemy_session_persistence must be one of %s, got %r"
       with its three operands, left unformatted *)
| FactoryError (msg : string)
| RuntimeError (msg : string)
| AttributeError (msg : string)
| IntegrityError (detail : string)
| NoResultFound
| MultipleResultsFound
| OtherError (name : string).

Inductive res (A : Type) : Type :=
| Returns (a : A)
| Raises (e : exn).
Arguments Returns {A} a.
Arguments Raises {A} e.

(** ** Module constants (lines 8-14) *)

Definition SESSION_PERSISTENCE_COMMIT : pyval := VStr "commit".
Definition SESSION_PERSISTENCE_FLUSH : pyval := VStr "flush".
Definition VALID_SESSION_PERSISTENCE_TYPES : list pyval :=
  [ VNone; SESSION_PERSISTENCE_COMMIT; SESSION_PERSISTENCE_FLUSH ].

(** ** SQLAlchemyOptions (lines 17-35) *)

(** [base.OptionDefault(name, value, inherit=..., checker=...)]: the fields
    the constructor is given. *)
Record OptionDefault : Type := {
  name : string;
  value : pyval;
  inherit : bool;
  checker : option (string -> pyval -> res unit)
}.

Module SQLAlchemyOptions.

Definition _check_sqlalchemy_session_persistence
    (meta : string) (value : pyval) : res unit :=
  if negb (py_in value VALID_SESSION_PERSISTENCE_TYPES) then
    Raises (TypeError meta VALID_SESSION_PERSISTENCE_TYPES value)
  else Returns tt.

(** [super_options] is what [super()._build_default_options()] returns. *)
Definition _build_default_options (super_options : list OptionDefault)
    : list OptionDefault :=
  super_options ++
  [ {| name := "sqlalchemy_get_or_create"; value := VTuple [];
       inherit := true; checker := None |};
    {| name := "sqlalchemy_session"; value := VNone;
       inherit := true; checker := None |};
    {| name := "sqlalchemy_session_persistence"; value := VNone;
       inherit := true;
       checker := Some _check_sqlalchemy_session_persistence |} ].

End SQLAlchemyOptions.

(** Modelled from the spec: [base.OptionDefault.apply] and the loop of
    [base.FactoryOptions] that builds a factory's options when its class is
    defined are not in alchemy.py.  The spec (sections 3 and 6) has the
    options "declared as inheritable, checked, named options", each
    "validated at declaration time": the value is the one declared on the
    factory's [Meta], else (for an inheritable option) the one of the parent
    factory, else the default, and the option's checker, when it has one, is
    run on that value. *)
Definition apply_option (meta : string) (declared inherited : kwargs)
    (o : OptionDefault) : res pyval :=
  let v0 := if inherit o then default (value o) (inherited !! name o)
            else value o in
  let v := default v0 (declared !! name o) in
  match checker o with
  | None => Returns v
  | Some check =>
      match check meta v with
      | Returns _ => Returns v
      | Raises e => Raises e
      end
  end.

(** Modelled from the spec: building the options of a factory at its
    definition applies the declared options in order; the first checker
    that raises aborts the definition. *)
Fixpoint build_options (meta : string) (declared inherited : kwargs)
    (options : list OptionDefault) : res (list (string * pyval)) :=
  match options with
  | [] => Returns []
  | o :: rest =>
      match apply_option meta declared inherited o with
      | Raises e => Raises e
      | Returns v =>
          match build_options meta declared inherited rest with
          | Raises e => Raises e
          | Returns vs => Returns ((name o, v) :: vs)
          end
      end
  end.

(** ** The ORM, seen from the adapter *)

(** A model instance is known by its identity.  Whether it is truthy is
    for its class to say ([truthy], below). *)
Definition obj : Type := nat.

(** The session object configured as [sqlalchemy_session]. *)
Inductive Session : Type := SessionObject (id : nat).

(** What the adapter calls on its collaborators.  [W] is the state of the
    outside world (session, identity map, database); any call may change it
    and may raise. *)
Class ORM (W : Type) : Type := {
  (* bool(instance): a plain object is truthy; a model class that defines
     __bool__ or __len__ decides from the state of the instance *)
  truthy : obj -> W -> bool;
  (* the constructor call: model_class, args unpacked, kwargs unpacked *)
  model_new : string -> list pyval -> kwargs -> W -> res obj * W;
  (* session.query(model_class).filter_by(..).one_or_none(), filtered by
     the unpacked args and kwargs *)
  one_or_none :
    Session -> string -> list pyval -> kwargs -> W -> res (option obj) * W;
  (* session.query(model_class).filter_by(..).one(), filtered by the
     unpacked kwargs *)
  one : Session -> string -> kwargs -> W -> res obj * W;
  session_add : Session -> obj -> W -> res unit * W;
  (* obj in session *)
  session_contains : Session -> obj -> W -> res bool * W;
  session_flush : Session -> W -> res unit * W;
  session_commit : Session -> W -> res unit * W;
  session_rollback : Session -> W -> res unit * W
}.

Inductive call : Type :=
| Construct (model_class : string) (args : list pyval) (kw : kwargs)
| QueryOneOrNone (s : Session) (model_class : string)
    (args : list pyval) (kw : kwargs)
| QueryOne (s : Session) (model_class : string) (kw : kwargs)
| Add (s : Session) (o : obj)
| Contains (s : Session) (o : obj)
| Flush (s : Session)
| Commit (s : Session)
| Rollback (s : Session).

Inductive retval : Type :=
| RNone
| RBool (b : bool)
| RObj (o : obj).

Inductive outcome : Type :=
| Gave (v : retval)
| Threw (e : exn).

(** One entry of the call log: the call and how it ended. *)
Abbreviation event := (call * outcome)%type.

Definition calls (log : list event) : list call := fst <$> log.

Definition is_query (c : call) : bool :=
  match c with
  | QueryOneOrNone _ _ _ _ | QueryOne _ _ _ => true
  | _ => false
  end.

(** A call on the session: everything but the model's constructor. *)
Definition is_session_call (c : call) : bool :=
  match c with
  | Construct _ _ _ => false
  | _ => true
  end.

Definition is_flush_or_commit (c : call) : bool :=
  match c with
  | Flush _ | Commit _ => true
  | _ => false
  end.

Definition is_construct (c : call) : bool :=
  match c with
  | Construct _ _ _ => true
  | _ => false
  end.


(** ** The monad of the adapter's methods *)

Section Adapter.

Context {W : Type}.

(** The world, and the class attribute [cls._original_params] ([None]
    here: the attribute was never assigned). *)
Record pstate : Type := {
  world : W;
  _original_params : option kwargs
}.

(** A method body: from a state to its result, the state it leaves and
    the calls it issued, oldest first. *)
Definition M (A : Type) : Type := pstate -> res A * pstate * list event.

Definition ret {A} (a : A) : M A := fun st => (Returns a, st, []).

Definition raise {A} (e : exn) : M A := fun st => (Raises e, st, []).

Definition bind {A B} (m : M A) (f : A -> M B) : M B :=
  fun st =>
    match m st with
    | (Returns a, st1, log1) =>
        let '(r, st2, log2) := f a st1 in (r, st2, log1 ++ log2)
    | (Raises e, st1, log1) => (Raises e, st1, log1)
    end.

(** [try: m  except <the classes h accepts> as e: h e]. *)
Definition try_except {A} (m : M A) (h : exn -> option (M A)) : M A :=
  fun st =>
    match m st with
    | (Returns a, st1, log1) => (Returns a, st1, log1)
    | (Raises e, st1, log1) =>
        match h e with
        | Some handler =>
            let '(r, st2, log2) := handler st1 in (r, st2, log1 ++ log2)
        | None => (Raises e, st1, log1)
        end
    end.

Definition lift {A} (r : res A) : M A := fun st => (r, st, []).

(** [if test: m1 else: m2], for a test that reads the world. *)
Definition branch {A} (test : W -> bool) (m1 m2 : M A) : M A :=
  fun st => if test (world st) then m1 st else m2 st.

(** An outside call, logged with its outcome. *)
Definition invoke {A} (c : call) (f : W -> res A * W)
    (shown : A -> retval) : M A :=
  fun st =>
    let '(r, w) := f (world st) in
    (r, {| world := w; _original_params := _original_params st |},
     [(c, match r with
          | Returns a => Gave (shown a)
          | Raises e => Threw e
          end)]).

End Adapter.

Arguments pstate W : clear implicits.
Arguments M W A : clear implicits.

Declare Scope py_scope.
Delimit Scope py_scope with py.
Notation "x <- m ;; k" := (bind m (fun x => k))
  (at level 100, m at next level, right associativity) : py_scope.
Notation "m ;;; k" := (bind m (fun _ => k))
  (at level 100, right associativity) : py_scope.
Local Open Scope py_scope.

(** ** SQLAlchemyModelFactory (lines 38-112) *)

(** [cls._meta]: the three options of this module. *)
Record Meta : Type := {
  sqlalchemy_get_or_create : list string;
  sqlalchemy_session : option Session;
  sqlalchemy_session_persistence : pyval
}.

(** A factory class: [cls.__name__] and [cls._meta]. *)
Record Factory : Type := {
  __name__ : string;
  _meta : Meta
}.

Module SQLAlchemyModelFactory.
Section Methods.

Context {W : Type} `{!ORM W}.

(** Attribute access on [cls._meta.sqlalchemy_session]: [None] has none
    of the session's methods. *)
Definition session_method {A} (session : option Session) (attr : string)
    (k : Session -> M W A) : M W A :=
  match session with
  | Some s => k s
  | None =>
      raise (AttributeError
               ("'NoneType' object has no attribute '" +:+ attr +:+ "'"))
  end.

(** [cls._original_params] *)
Definition read_original_params (cls : Factory) : M W kwargs :=
  fun st =>
    match _original_params st with
    | Some params => (Returns params, st, [])
    | None =>
        (Raises (AttributeError
                   ("type object '" +:+ __name__ cls
                    +:+ "' has no attribute '_original_params'")),
         st, [])
    end.

(** Lines 46-51.  [super_generate] is the engine's [_generate], which
    this method delegates to once the parameters are stored. *)
Definition _generate {A} (cls : Factory)
    (super_generate : string -> kwargs -> M W A)
    (strategy : string) (params : kwargs) : M W A :=
  fun st =>
    super_generate strategy params
      {| world := world st; _original_params := Some params |}.

(** Lines 59-66: the loop that moves the key fields from [kwargs] to
    [key_fields], or raises at the first one it does not find. *)
Fixpoint pop_key_fields (cls : Factory) (fields : list string)
    (key_fields kw : kwargs) : res (kwargs * kwargs) :=
  match fields with
  | [] => Returns (key_fields, kw)
  | field :: rest =>
      match kw !! field with
      | None =>
          Raises (FactoryError
            ("sqlalchemy_get_or_create - "
             +:+ "Unable to find initialization value for '" +:+ field
             +:+ "' in factory " +:+ __name__ cls))
      | Some v =>
          pop_key_fields cls rest (<[field := v]> key_fields)
            (delete field kw)
      end
  end.

(** Lines 72-74, the body of the [try].  [not instance] holds of [None]
    and of an instance that is falsy. *)
Definition create_if_missing (s : Session) (model_class : string)
    (args : list pyval) (key_fields : kwargs) (instance : option obj)
    : M W obj :=
  let insert : M W obj :=
    instance <- invoke (Construct model_class args key_fields)
                  (model_new model_class args key_fields) RObj ;;
    invoke (Add s instance) (session_add s instance) (fun _ => RNone) ;;;
    ret instance in
  match instance with
  | Some found => branch (truthy found) (ret found) insert
  | None => insert
  end.

(** Lines 77-81, the dict comprehension. *)
Definition get_or_create_params (cls : Factory) (original : kwargs)
    : kwargs :=
  filter (fun kv : string * pyval =>
            kv.1 ∈ sqlalchemy_get_or_create (_meta cls)) original.

(** Lines 76-91, the body of [except IntegrityError as e]. *)
Definition recover (cls : Factory) (s : Session) (model_class : string)
    (e : exn) : M W obj :=
  invoke (Rollback s) (session_rollback s) (fun _ => RNone) ;;;
  original <- read_original_params cls ;;
  let params := get_or_create_params cls original in
  if dict_truthy params then
    try_except
      (invoke (QueryOne s model_class params)
         (one s model_class params) RObj)
      (fun e' => match e' with
                 | NoResultFound => Some (raise e)
                 | _ => None
                 end)
  else raise e.

(** Lines 53-93. *)
Definition _get_or_create (cls : Factory) (model_class : string)
    (args : list pyval) (kw : kwargs) : M W obj :=
  let session := sqlalchemy_session (_meta cls) in
  popped <- lift (pop_key_fields cls
                    (sqlalchemy_get_or_create (_meta cls)) ∅ kw) ;;
  let key_fields := popped.1 in
  session_method session "query" (fun s =>
    instance <- invoke (QueryOneOrNone s model_class args key_fields)
                  (one_or_none s model_class args key_fields)
                  (fun r => match r with
                            | Some found => RObj found
                            | None => RNone
                            end) ;;
    try_except
      (create_if_missing s model_class args key_fields instance)
      (fun e => match e with
                | IntegrityError _ => Some (recover cls s model_class e)
                | _ => None
                end)).

(** Lines 108-111. *)
Definition apply_persistence (s : Session) (session_persistence : pyval)
    : M W unit :=
  if py_eq session_persistence SESSION_PERSISTENCE_FLUSH then
    invoke (Flush s) (session_flush s) (fun _ => RNone)
  else if py_eq session_persistence SESSION_PERSISTENCE_COMMIT then
    invoke (Commit s) (session_commit s) (fun _ => RNone)
  else ret tt.

(** Lines 106-112: what [_create] does with the object it has. *)
Definition track_and_persist (s : Session) (session_persistence : pyval)
    (o : obj) : M W obj :=
  tracked <- invoke (Contains s o) (session_contains s o) RBool ;;
  (if negb tracked then
     invoke (Add s o) (session_add s o) (fun _ => RNone)
   else ret tt) ;;;
  apply_persistence s session_persistence ;;;
  ret o.

(** Lines 95-112. *)
Definition _create (cls : Factory) (model_class : string)
    (args : list pyval) (kw : kwargs) : M W obj :=
  let session := sqlalchemy_session (_meta cls) in
  let session_persistence := sqlalchemy_session_persistence (_meta cls) in
  o <- invoke (Construct model_class args kw)
         (model_new model_class args kw) RObj ;;
  match session with
  | None => raise (RuntimeError "No session provided.")
  | Some s =>
      o <- (match sqlalchemy_get_or_create (_meta cls) with
            | [] => ret o
            | _ :: _ => _get_or_create cls model_class args kw
            end) ;;
      track_and_persist s session_persistence o
  end.

End Methods.
End SQLAlchemyModelFactory.

(** ** Vocabulary for the properties *)

Section Vocabulary.

Import SQLAlchemyModelFactory.

Context {W : Type} `{!ORM W}.

Implicit Types (cls : Factory) (model_class : string) (args : list pyval)
  (kw key_fields : kwargs) (st : pstate W) (s : Session).

(** The message of lines 63-65. *)
Definition missing_field_message (cls : Factory) (field : string) : string :=
  "sqlalchemy_get_or_create - "
  +:+ "Unable to find initialization value for '" +:+ field
  +:+ "' in factory " +:+ __name__ cls.

(** The state a call leaves: a new world, the class attribute as it
    was. *)
Definition moved (st : pstate W) (w : W) : pstate W :=
  {| world := w; _original_params := _original_params st |}.

(** The entry the first lookup leaves in the log. *)
Definition looked_up s model_class args key_fields (found : option obj)
    : event :=
  (QueryOneOrNone s model_class args key_fields,
   Gave (match found with Some row => RObj row | None => RNone end)).

(** Every call [m] issues, from any state, satisfies [P]. *)
Definition emits {A} (P : call → Prop) (m : M W A) : Prop :=
  ∀ st, Forall P (calls (m st).2).

(** The calls [_get_or_create] can issue, for the key fields
    [key_fields]: the two lookups, the constructor on the positional args
    and [key_fields], [add] and [rollback]. *)
Definition get_or_create_call model_class args key_fields (c : call)
    : Prop :=
  match c with
  | Construct m a k => m = model_class ∧ a = args ∧ k = key_fields
  | QueryOneOrNone _ _ _ _ | QueryOne _ _ _ | Add _ _ | Rollback _ => True
  | Contains _ _ | Flush _ | Commit _ => False
  end.

(** The key fields [_get_or_create] works with: what the loop popped. *)
Definition popped_key_fields cls kw : kwargs :=
  match pop_key_fields cls (sqlalchemy_get_or_create (_meta cls)) ∅ kw with
  | Returns popped => popped.1
  | Raises _ => ∅
  end.

(** The log entries of the persistence step. *)
Definition policy_entries s (session_persistence : pyval) : list event :=
  if py_eq session_persistence SESSION_PERSISTENCE_FLUSH then
    [(Flush s, Gave RNone)]
  else if py_eq session_persistence SESSION_PERSISTENCE_COMMIT then
    [(Commit s, Gave RNone)]
  else [].

(** The object [_create] passes on to lines 106-112: the one it
    constructed, or the result of [_get_or_create]. *)
Definition obtain cls model_class args kw (constructed : obj) : M W obj :=
  match sqlalchemy_get_or_create (_meta cls) with
  | [] => ret constructed
  | _ :: _ => _get_or_create cls model_class args kw
  end.

(** The exceptions the two methods raise themselves. *)
Definition own_error (e : exn) : Prop :=
  match e with
  | RuntimeError _ | FactoryError _ | AttributeError _ => True
  | _ => False
  end.

(** Whatever [m] raises is one of those, or an exception it was handed
    ([known]), or was thrown by a call that is in its log. *)
Definition accounted {A} (known : exn → Prop) (m : M W A) : Prop :=
  ∀ st e, (m st).1.1 = Raises e →
          own_error e ∨ known e ∨ ∃ c, (c, Threw e) ∈ (m st).2.

(** [m] never assigns [cls._original_params]. *)
Definition keeps {A} (m : M W A) : Prop :=
  ∀ st, _original_params (m st).1.2 = _original_params st.

(** The [except] clause of [_get_or_create]: only IntegrityError is
    handled, by [recover]. *)
Definition on_integrity_error cls s model_class (e : exn)
    : option (M W obj) :=
  match e with
  | IntegrityError _ => Some (recover cls s model_class e)
  | _ => None
  end.

(** The calls of the insert attempt: the constructor and [add]. *)
Definition is_insert_call (c : call) : bool :=
  match c with
  | Construct _ _ _ | Add _ _ => true
  | _ => false
  end.

Definition is_rollback (c : call) : bool :=
  match c with
  | Rollback _ => true
  | _ => false
  end.

(** In [log], [session.rollback()] on [s] comes right after an insert call
    that threw an IntegrityError, and nowhere else. *)
Definition follows_integrity_error (s : Session) (log : list event)
    : Prop :=
  ∃ front c detail out back,
    log = front ++ (c, Threw (IntegrityError detail))
                :: (Rollback s, out) :: back
    ∧ is_insert_call c = true
    ∧ Forall (fun c => is_rollback c = false) (calls front)
    ∧ Forall (fun c => is_rollback c = false) (calls back).

(** [log] ends with at most one flush or commit, [last]; when there is
    one, it returned if the run [result] returned and it threw what the run
    raised. *)
Definition ends_with_policy {A} (result : res A) (log : list event)
    : Prop :=
  ∃ before last,
    log = before ++ last
    ∧ Forall (fun c => is_flush_or_commit c = false) (calls before)
    ∧ (last = []
       ∨ ∃ c out,
           last = [(c, out)] ∧ is_flush_or_commit c = true
           ∧ match out with
             | Gave _ => ∃ a, result = Returns a
             | Threw e => result = Raises e
             end).

(** [_create], started in [st], has the object [o] it will work with
    (lines 101-105) and is in state [st1]; [before] are its calls so far:
    the constructor call of line 101, then those of [_get_or_create], if
    it is configured. *)
Definition obtained cls model_class args kw st (o : obj)
    (st1 : pstate W) (before : list event) : Prop :=
  ∃ constructed (w1 : W) middle,
    model_new model_class args kw (world st) = (Returns constructed, w1)
    ∧ obtain cls model_class args kw constructed (moved st w1)
      = (Returns o, st1, middle)
    ∧ before = (Construct model_class args kw, Gave (RObj constructed))
               :: middle.

(** Lines 106-107 run from [st1]: [obj in session] answers [tracked] and,
    when the answer is no, [session.add(obj)] returns; [w3] is the world
    this leaves. *)
Definition tracked_from s (o : obj) (st1 : pstate W) (tracked : bool)
    (w3 : W) : Prop :=
  ∃ w2 : W,
    session_contains s o (world st1) = (Returns tracked, w2)
    ∧ (if tracked then (Returns tt, w2) else session_add s o w2)
      = (Returns tt, w3).

End Vocabulary.

(** ** A scripted ORM, for running the methods on concrete inputs *)

Module Scripted.

(** A session double, as a test would set one up: fixed answers for the
    two lookups, the constructor and [add]; [cascade] says that
    constructing an object already attaches it to the session (a
    save-update cascade from a related object); [tracked] lists the
    objects in the session; [falsy] lists the instances whose class makes
    them falsy. *)
Record stub : Type := {
  found : res (option obj);
  refound : res obj;
  built : res obj;
  cascade : bool;
  adding : res unit;
  tracked : list obj;
  falsy : list obj
}.

Definition track (o : obj) (w : stub) : stub :=
  {| found := found w; refound := refound w; built := built w;
     cascade := cascade w; adding := adding w;
     tracked := o :: tracked w; falsy := falsy w |}.

#[export] Instance orm : ORM stub := {|
  truthy o w := negb (bool_decide (o ∈ falsy w));
  model_new _ _ _ w :=
    (built w,
     match built w with
     | Returns o => if cascade w then track o w else w
     | Raises _ => w
     end);
  one_or_none _ _ _ _ w := (found w, w);
  one _ _ _ w := (refound w, w);
  session_add _ o w :=
    (adding w,
     match adding w with
     | Returns _ => track o w
     | Raises _ => w
     end);
  session_contains _ o w := (Returns (bool_decide (o ∈ tracked w)), w);
  session_flush _ w := (Returns tt, w);
  session_commit _ w := (Returns tt, w);
  session_rollback _ w := (Returns tt, w)
|}.

Definition the_session : Session := SessionObject 0.

(** [UserFactory], with [sqlalchemy_get_or_create = ('name',)]. *)
Definition user_factory (persistence : pyval) : Factory :=
  {| __name__ := "UserFactory";
     _meta := {| sqlalchemy_get_or_create := ["name"];
                 sqlalchemy_session := Some the_session;
                 sqlalchemy_session_persistence := persistence |} |}.

(** The same factory without get-or-create. *)
Definition plain_factory (persistence : pyval) : Factory :=
  {| __name__ := "UserFactory";
     _meta := {| sqlalchemy_get_or_create := [];
                 sqlalchemy_session := Some the_session;
                 sqlalchemy_session_persistence := persistence |} |}.

(** [name='ann', age=3] *)
Definition ann : kwargs := <["name" := VStr "ann"]> (<["age" := VInt 3]> ∅).

Definition start (w : stub) (original : option kwargs) : pstate stub :=
  {| world := w; _original_params := original |}.

(** No row matches, the constructor gives object 1, nothing fails. *)
Definition empty_db : stub :=
  {| found := Returns None; refound := Raises NoResultFound;
     built := Returns 1%nat; cascade := false; adding := Returns tt;
     tracked := []; falsy := [] |}.

(** A row with this name is already there: object 7. *)
Definition row_exists : stub :=
  {| found := Returns (Some 7%nat); refound := Returns 7%nat;
     built := Returns 1%nat; cascade := false; adding := Returns tt;
     tracked := [7%nat]; falsy := [] |}.

(** The lookup misses, and adding the new object hits the unique
    constraint: another writer has inserted object 7 in between. *)
Definition conflict : stub :=
  {| found := Returns None; refound := Returns 7%nat;
     built := Returns 1%nat; cascade := false;
     adding := Raises (IntegrityError "UNIQUE constraint failed: users.name");
     tracked := []; falsy := [] |}.

(** Constructing the object attaches it to the session. *)
Definition cascading : stub :=
  {| found := Returns None; refound := Raises NoResultFound;
     built := Returns 1%nat; cascade := true; adding := Returns tt;
     tracked := []; falsy := [] |}.

Definition name_ann : kwargs := <["name" := VStr "ann"]> ∅.
Definition age_only : kwargs := <["age" := VInt 3]> ∅.

(** The factory with no [sqlalchemy_session]. *)
Definition no_session_factory : Factory :=
  {| __name__ := "UserFactory";
     _meta := {| sqlalchemy_get_or_create := ["name"];
                 sqlalchemy_session := None;
                 sqlalchemy_session_persistence := VNone |} |}.





End Scripted.

(** * Properties *)

(** ** Values and the persistence checker *)

Lemma py_eq_None (v : pyval) : py_eq v VNone = true ↔ v = VNone.
Proof. destruct v; simpl; split; congruence. Qed.

Lemma py_eq_VStr (v : pyval) (s : string) :
  py_eq v (VStr s) = true ↔ v = VStr s.
Proof.
  destruct v as [| b | n | t | items]; simpl; try (split; congruence).
  rewrite String.eqb_eq. split; congruence.
Qed.

Lemma py_in_valid (v : pyval) :
  py_in v VALID_SESSION_PERSISTENCE_TYPES = true
  ↔ v ∈ VALID_SESSION_PERSISTENCE_TYPES.
Proof.
  unfold py_in, VALID_SESSION_PERSISTENCE_TYPES, SESSION_PERSISTENCE_COMMIT,
    SESSION_PERSISTENCE_FLUSH. simpl.
  rewrite orb_false_r, !orb_true_iff, py_eq_None, !py_eq_VStr.
  rewrite !elem_of_cons, elem_of_nil. tauto.
Qed.

Lemma valid_values (v : pyval) :
  v ∈ VALID_SESSION_PERSISTENCE_TYPES
  ↔ v = VNone ∨ v = VStr "flush" ∨ v = VStr "commit".
Proof.
  unfold VALID_SESSION_PERSISTENCE_TYPES, SESSION_PERSISTENCE_COMMIT,
    SESSION_PERSISTENCE_FLUSH.
  rewrite !elem_of_cons, elem_of_nil. tauto.
Qed.

Lemma check_accepts (meta : string) (v : pyval) :
  v ∈ VALID_SESSION_PERSISTENCE_TYPES →
  SQLAlchemyOptions._check_sqlalchemy_session_persistence meta v = Returns tt.
Proof.
  intros Hin. apply py_in_valid in Hin.
  unfold SQLAlchemyOptions._check_sqlalchemy_session_persistence.
  by rewrite Hin.
Qed.

Lemma check_rejects (meta : string) (v : pyval) :
  v ∉ VALID_SESSION_PERSISTENCE_TYPES →
  SQLAlchemyOptions._check_sqlalchemy_session_persistence meta v
  = Raises (TypeError meta VALID_SESSION_PERSISTENCE_TYPES v).
Proof.
  intros Hout.
  unfold SQLAlchemyOptions._check_sqlalchemy_session_persistence.
  destruct (py_in v VALID_SESSION_PERSISTENCE_TYPES) eqn:Hin; [|done].
  by apply py_in_valid in Hin.
Qed.

(** C10: the checker accepts exactly [None], ['flush'] and ['commit'];
    the string ['none'] is not among them, and the checker raises its
    TypeError on it. *)
Theorem accepted_persistence_values :
  (∀ (meta : string) (v : pyval),
     SQLAlchemyOptions._check_sqlalchemy_session_persistence meta v
       = Returns tt
     ↔ v = VNone ∨ v = VStr "flush" ∨ v = VStr "commit")
  ∧ (VStr "none" ∉ VALID_SESSION_PERSISTENCE_TYPES)
  ∧ (∀ meta : string,
       SQLAlchemyOptions._check_sqlalchemy_session_persistence meta
         (VStr "none")
       = Raises (TypeError meta [VNone; VStr "commit"; VStr "flush"]
                   (VStr "none"))).
Proof.
  split; [|split].
  - intros meta v. rewrite <- valid_values. split.
    + intros Hok.
      destruct (decide (py_in v VALID_SESSION_PERSISTENCE_TYPES = true))
        as [Hin | Hout]; [by apply py_in_valid|].
      unfold SQLAlchemyOptions._check_sqlalchemy_session_persistence in Hok.
      destruct (py_in v VALID_SESSION_PERSISTENCE_TYPES); [done | discriminate].
    + apply check_accepts.
  - rewrite valid_values. intros [H | [H | H]]; discriminate.
  - intros meta. reflexivity.
Qed.

(** ** Dicts *)

Lemma dict_truthy_nonempty (d : kwargs) : dict_truthy d = true ↔ d ≠ ∅.
Proof.
  unfold dict_truthy. rewrite <- (map_to_list_empty_iff d).
  destruct (map_to_list d); split; congruence.
Qed.


(** ** The key-field loop *)

Section KeyFields.

Variable cls : Factory.

(** When the loop ends normally it has seen each field once and found it
    in [kwargs]; [key_fields] then holds exactly these entries on top of
    what it held before, and [kwargs] has lost them. *)
Lemma pop_key_fields_returns (fields : list string)
    (acc kw key_fields rest : kwargs) :
  SQLAlchemyModelFactory.pop_key_fields cls fields acc kw
    = Returns (key_fields, rest) →
  NoDup fields
  ∧ (∀ k, k ∈ fields → is_Some (kw !! k))
  ∧ (∀ k, key_fields !! k = if decide (k ∈ fields) then kw !! k
                             else acc !! k)
  ∧ (∀ k, rest !! k = if decide (k ∈ fields) then None else kw !! k).
Proof.
  revert acc kw.
  induction fields as [| f fields IH]; intros acc kw Hpop; simpl in Hpop.
  - injection Hpop as <- <-. split; [constructor|]. split.
    + intros k Hk. by apply elem_of_nil in Hk.
    + split; intros k; by rewrite decide_False by apply not_elem_of_nil.
  - destruct (kw !! f) as [v|] eqn:Hf; [|discriminate].
    destruct (IH _ _ Hpop) as (Hnd & Hin & Hkey & Hrest).
    assert (Hfresh : f ∉ fields).
    { intros Hmem. destruct (Hin f Hmem) as [x Hx].
      by rewrite lookup_delete_eq in Hx. }
    split; [by constructor|]. split; [|split].
    + intros k [-> | Hk]%elem_of_cons; [by eexists|].
      destruct (Hin k Hk) as [x Hx].
      destruct (decide (f = k)) as [-> | Hne]; [done|].
      rewrite lookup_delete_ne in Hx by done. by eexists.
    + intros k. rewrite Hkey.
      destruct (decide (k = f)) as [-> | Hne].
      * rewrite decide_False by done.
        rewrite decide_True by apply list_elem_of_here.
        by rewrite lookup_insert_eq.
      * destruct (decide (k ∈ fields)) as [Hk | Hk].
        -- rewrite decide_True by (by apply list_elem_of_further).
           by rewrite lookup_delete_ne.
        -- rewrite decide_False
             by (intros [? | ?]%elem_of_cons; congruence).
           by rewrite lookup_insert_ne.
    + intros k. rewrite Hrest.
      destruct (decide (k = f)) as [-> | Hne].
      * rewrite decide_False by done.
        rewrite decide_True by apply list_elem_of_here.
        by rewrite lookup_delete_eq.
      * destruct (decide (k ∈ fields)) as [Hk | Hk].
        -- by rewrite decide_True by (by apply list_elem_of_further).
        -- rewrite decide_False
             by (intros [? | ?]%elem_of_cons; congruence).
           by rewrite lookup_delete_ne.
Qed.

(** When a listed field is not in [kwargs] the loop raises, at the first
    field it cannot find: one absent from [kwargs], or one listed twice
    (its value was popped the first time). *)
Lemma pop_key_fields_raises (fields : list string) (acc kw : kwargs) :
  (∃ f, f ∈ fields ∧ kw !! f = None) →
  ∃ before field after,
    fields = before ++ field :: after
    ∧ NoDup before
    ∧ (∀ k, k ∈ before → is_Some (kw !! k))
    ∧ (kw !! field = None ∨ field ∈ before)
    ∧ SQLAlchemyModelFactory.pop_key_fields cls fields acc kw
      = Raises (FactoryError (missing_field_message cls field)).
Proof.
  revert acc kw. induction fields as [| f fields IH]; intros acc kw.
  - intros (g & Hg & _). by apply elem_of_nil in Hg.
  - intros (g & Hg & Hmiss). simpl.
    destruct (kw !! f) as [v|] eqn:Hf.
    + assert (Hex : ∃ g', g' ∈ fields ∧ delete f kw !! g' = None).
      { exists g. apply elem_of_cons in Hg as [-> | Hg]; [congruence|].
        split; [done|]. rewrite lookup_delete. by case_decide. }
      destruct (IH (<[f := v]> acc) (delete f kw) Hex)
        as (before & field & after & -> & Hnd & Hall & Hwhy & Hrun).
      exists (f :: before), field, after.
      assert (Hfresh : f ∉ before).
      { intros Hmem. destruct (Hall f Hmem) as [x Hx].
        by rewrite lookup_delete_eq in Hx. }
      split; [done|]. split; [by constructor|]. split; [|split; [|done]].
      * intros k [-> | Hk]%elem_of_cons; [by eexists|].
        destruct (Hall k Hk) as [x Hx].
        rewrite lookup_delete in Hx. case_decide; [done | by eexists].
      * destruct Hwhy as [Hgone | Hdup].
        -- rewrite lookup_delete in Hgone. case_decide as Heq.
           ++ subst. right. apply list_elem_of_here.
           ++ by left.
        -- right. by apply list_elem_of_further.
    + exists [], f, fields. split; [done|]. split; [constructor|].
      split; [|by split; [left|]].
      intros k Hk. by apply elem_of_nil in Hk.
Qed.

End KeyFields.

(** ** Runs of [_get_or_create] and [_create] *)

Import SQLAlchemyModelFactory.

Ltac unfold_methods :=
  unfold _create, _get_or_create, track_and_persist, apply_persistence,
    recover, create_if_missing, read_original_params, session_method,
    try_except, branch, bind, ret, raise, lift, invoke in *.

Section Runs.

Context {W : Type} `{!ORM W}.

Implicit Types (cls : Factory) (model_class : string) (args : list pyval)
  (kw key_fields rest original : kwargs) (st : pstate W) (s : Session)
  (o row : obj).

(** In this section the methods run on [W]. *)
Local Abbreviation emits := (emits (W := W)).
Local Abbreviation accounted := (accounted (W := W)).

(** *** What a method can put in the log *)

Lemma emits_ret {A} P (a : A) : emits P (ret a : M W A).
Proof. intros st. constructor. Qed.

Lemma emits_raise {A} P e : emits P (raise e : M W A).
Proof. intros st. constructor. Qed.

Lemma emits_lift {A} P (r : res A) : emits P (lift r : M W A).
Proof. intros st. constructor. Qed.

Lemma emits_invoke {A} (P : call → Prop) c (f : W → res A * W) shown :
  P c → emits P (invoke c f shown).
Proof.
  intros Hc st. unfold invoke. destruct (f (world st)) as [r w].
  simpl. by repeat constructor.
Qed.

Lemma emits_bind {A B} P (m : M W A) (f : A → M W B) :
  emits P m → (∀ a, emits P (f a)) → emits P (bind m f).
Proof.
  intros Hm Hf st. unfold bind. specialize (Hm st).
  destruct (m st) as [[[a | e] st1] log1]; [|done].
  specialize (Hf a st1). destruct (f a st1) as [[r st2] log2].
  simpl in *. unfold calls in *. rewrite fmap_app.
  by apply Forall_app.
Qed.

Lemma emits_try_except {A} P (m : M W A) h :
  emits P m → (∀ e handler, h e = Some handler → emits P handler) →
  emits P (try_except m h).
Proof.
  intros Hm Hh st. unfold try_except. specialize (Hm st).
  destruct (m st) as [[[a | e] st1] log1]; [done|].
  destruct (h e) as [handler|] eqn:He; [|done].
  specialize (Hh e handler He st1).
  destruct (handler st1) as [[r st2] log2].
  simpl in *. unfold calls in *. rewrite fmap_app.
  by apply Forall_app.
Qed.

Lemma emits_branch {A} P (test : W → bool) (m1 m2 : M W A) :
  emits P m1 → emits P m2 → emits P (branch test m1 m2).
Proof.
  intros H1 H2 st. unfold branch.
  destruct (test (world st)); [apply H1 | apply H2].
Qed.

Lemma emits_read_original_params P cls :
  emits P (read_original_params cls).
Proof.
  intros st. unfold read_original_params.
  destruct (_original_params st); constructor.
Qed.

(** [try_except] keeps the calls of its body at the head of the log. *)
Lemma try_except_log {A} (m : M W A) h st :
  ∃ tail, (try_except m h st).2 = (m st).2 ++ tail.
Proof.
  unfold try_except. destruct (m st) as [[[a | e] st1] log1]; simpl.
  - exists []. by rewrite app_nil_r.
  - destruct (h e) as [handler|].
    + destruct (handler st1) as [[r st2] log2]. by exists log2.
    + exists []. by rewrite app_nil_r.
Qed.

Lemma create_if_missing_emits s model_class args key_fields instance :
  emits (get_or_create_call model_class args key_fields)
    (create_if_missing s model_class args key_fields instance).
Proof.
  unfold create_if_missing.
  assert (Hinsert : emits (get_or_create_call model_class args key_fields)
            (instance <- invoke (Construct model_class args key_fields)
                           (model_new model_class args key_fields) RObj ;;
             invoke (Add s instance) (session_add s instance)
               (fun _ => RNone) ;;;
             ret instance)).
  { apply emits_bind; [by apply emits_invoke|].
    intros o. apply emits_bind; [by apply emits_invoke|].
    intros _. apply emits_ret. }
  destruct instance as [found|]; [|done].
  apply emits_branch; [apply emits_ret | done].
Qed.

Lemma recover_emits cls s model_class args key_fields e :
  emits (get_or_create_call model_class args key_fields)
    (recover cls s model_class e).
Proof.
  unfold recover. apply emits_bind; [by apply emits_invoke|].
  intros _. apply emits_bind; [apply emits_read_original_params|].
  intros original.
  destruct (dict_truthy (get_or_create_params cls original)).
  - apply emits_try_except; [by apply emits_invoke|].
    intros e' handler. destruct e'; try discriminate.
    intros [= <-]. apply emits_raise.
  - apply emits_raise.
Qed.

Lemma bind_lift_returns {A B} (a : A) (f : A → M W B) st :
  bind (lift (Returns a)) f st = f a st.
Proof. unfold bind, lift. by destruct (f a st) as [[r st2] log2]. Qed.

Lemma bind_lift_raises {A B} e (f : A → M W B) st :
  bind (lift (Raises e)) f st = (Raises e, st, []).
Proof. reflexivity. Qed.

Lemma get_or_create_emits cls model_class args kw :
  emits (get_or_create_call model_class args (popped_key_fields cls kw))
    (_get_or_create cls model_class args kw).
Proof.
  intros st. unfold _get_or_create, popped_key_fields.
  destruct (pop_key_fields cls (sqlalchemy_get_or_create (_meta cls)) ∅ kw)
    as [[key_fields rest] | e] eqn:Hpop.
  - rewrite bind_lift_returns. simpl. revert st.
    unfold session_method.
    destruct (sqlalchemy_session (_meta cls)) as [s|];
      [|apply emits_raise].
    apply emits_bind; [by apply emits_invoke|]. intros instance.
    apply emits_try_except; [apply create_if_missing_emits|].
    intros e handler. destruct e; try discriminate.
    intros [= <-]. apply recover_emits.
  - rewrite bind_lift_raises. constructor.
Qed.

Lemma get_or_create_call_no_flush_or_commit model_class args key_fields c :
  get_or_create_call model_class args key_fields c →
  is_flush_or_commit c = false.
Proof. by destruct c. Qed.

(** The calls of the [try] body when the lookup found nothing: the
    constructor, then [add] if the constructor returned. *)
Lemma create_if_missing_log s model_class args key_fields st :
  ∃ out tail,
    (create_if_missing s model_class args key_fields None st).2
    = (Construct model_class args key_fields, out) :: tail
    ∧ ∀ o w2,
        model_new model_class args key_fields (world st) = (Returns o, w2) →
        out = Gave (RObj o)
        ∧ ∃ out', tail = [(Add s o, out')].
Proof.
  unfold_methods.
  destruct (model_new model_class args key_fields (world st))
    as [[o | e] w2]; simpl.
  - destruct (session_add s o w2) as [[[] | e] w3]; simpl;
      (eexists _, _; split; [done|]; intros o' w2' [= <- <-]; eauto).
  - eexists _, _. split; [done|]. discriminate.
Qed.



(** C3: when the first lookup finds nothing, the constructor is called
    next, with the positional args and exactly the popped key fields (a
    name that is not a key field is not among its keyword arguments);
    the new instance is then added to the session; no flush and no
    commit is issued. *)
Theorem get_or_create_constructs_from_key_fields
    cls model_class args kw st s key_fields rest (w1 : W) :
  sqlalchemy_get_or_create (_meta cls) ≠ [] →
  sqlalchemy_session (_meta cls) = Some s →
  pop_key_fields cls (sqlalchemy_get_or_create (_meta cls)) ∅ kw
    = Returns (key_fields, rest) →
  one_or_none s model_class args key_fields (world st)
    = (Returns None, w1) →
  let run := _get_or_create cls model_class args kw st in
  let lookup := looked_up s model_class args key_fields None in
  (∀ k, key_fields !! k
        = if decide (k ∈ sqlalchemy_get_or_create (_meta cls))
          then kw !! k else None)
  ∧ (∃ out tail,
       run.2 = lookup :: (Construct model_class args key_fields, out)
                      :: tail)
  ∧ (∀ o w2, model_new model_class args key_fields w1 = (Returns o, w2) →
       ∃ out tail,
         run.2 = lookup
                 :: (Construct model_class args key_fields, Gave (RObj o))
                 :: (Add s o, out) :: tail)
  ∧ (∀ o w2 w3,
       model_new model_class args key_fields w1 = (Returns o, w2) →
       session_add s o w2 = (Returns tt, w3) →
       run = (Returns o, moved st w3,
              [lookup;
               (Construct model_class args key_fields, Gave (RObj o));
               (Add s o, Gave RNone)]))
  ∧ Forall (fun c => is_flush_or_commit c = false) (calls run.2).
Proof.
  intros _ Hs Hpop Hq run lookup.
  split; [|split; [|split; [|split]]].
  - intros k. destruct (pop_key_fields_returns _ _ _ _ _ _ Hpop)
      as (_ & _ & Hkey & _). rewrite Hkey. by rewrite lookup_empty.
  - subst run. unfold _get_or_create. rewrite Hpop, bind_lift_returns, Hs.
    simpl. unfold bind at 1, invoke at 1. rewrite Hq.
    match goal with
    | |- context [try_except ?m ?h ?st'] =>
        destruct (try_except_log m h st') as [tail Htail];
        destruct (try_except m h st') as [[r st2] log2]
    end.
    destruct (create_if_missing_log s model_class args key_fields (moved st w1))
      as (out & tail' & Hlog & _).
    simpl in *. rewrite Htail. unfold moved in Hlog. rewrite Hlog.
    by eexists _, _.
  - intros o w2 Hnew.
    subst run. unfold _get_or_create. rewrite Hpop, bind_lift_returns, Hs.
    simpl. unfold bind at 1, invoke at 1. rewrite Hq.
    match goal with
    | |- context [try_except ?m ?h ?st'] =>
        destruct (try_except_log m h st') as [tail Htail];
        destruct (try_except m h st') as [[r st2] log2]
    end.
    destruct (create_if_missing_log s model_class args key_fields (moved st w1))
      as (out & tail' & Hlog & Hreturned).
    destruct (Hreturned o w2 Hnew) as (-> & out' & ->).
    simpl in *. rewrite Htail. unfold moved in Hlog. rewrite Hlog.
    by eexists _, _.
  - intros o w2 w3 Hnew Hadd. subst run. unfold_methods.
    rewrite Hpop, Hs. simpl. rewrite Hq. simpl. rewrite Hnew. simpl.
    by rewrite Hadd.
  - eapply Forall_impl; [apply get_or_create_emits|].
    intros c. apply get_or_create_call_no_flush_or_commit.
Qed.

(** The [try] body never assigns [cls._original_params]. *)
Lemma create_if_missing_keeps s model_class args key_fields instance st :
  _original_params
    (create_if_missing s model_class args key_fields instance st).1.2
  = _original_params st.
Proof.
  unfold_methods.
  destruct instance as [found|];
    [destruct (truthy found (world st)); [done|]|];
    (destruct (model_new model_class args key_fields (world st))
       as [[o | e] w2]; [|done]); simpl.
  all: by destruct (session_add s o w2) as [[[] | e] w3].
Qed.

Lemma get_or_create_params_lookup cls original k :
  get_or_create_params cls original !! k
  = if decide (k ∈ sqlalchemy_get_or_create (_meta cls))
    then original !! k else None.
Proof.
  unfold get_or_create_params.
  destruct (decide (k ∈ sqlalchemy_get_or_create (_meta cls))) as [Hk | Hk].
  - destruct (original !! k) as [v|] eqn:Hv.
    + by apply map_lookup_filter_Some.
    + apply map_lookup_filter_None. by left.
  - apply map_lookup_filter_None. right. intros v _. exact Hk.
Qed.



Lemma get_or_create_missing_field cls model_class args kw e :
  pop_key_fields cls (sqlalchemy_get_or_create (_meta cls)) ∅ kw = Raises e →
  ∀ st, _get_or_create cls model_class args kw st = (Raises e, st, []).
Proof.
  intros Hpop st. unfold _get_or_create.
  by rewrite Hpop, bind_lift_raises.
Qed.

(** C4: when a field listed in [sqlalchemy_get_or_create] is not in the
    resolved kwargs, [_get_or_create] raises FactoryError before it has
    called anything; the message names the factory and the field the loop
    stopped at, the first one it could not find ([before] lists the fields
    it had popped by then; when no field is listed twice, that field is
    absent from the kwargs).  Called from [_create] on a factory with a
    session, once the constructor call of line 101 has returned, the same
    error is raised and that constructor call is the only call issued:
    nothing has been asked of the session. *)
Theorem missing_key_field_raises_before_any_call
    cls model_class args kw st :
  (∃ f, f ∈ sqlalchemy_get_or_create (_meta cls) ∧ kw !! f = None) →
  ∃ before field after,
    let error :=
      FactoryError
        ("sqlalchemy_get_or_create - "
         +:+ "Unable to find initialization value for '" +:+ field
         +:+ "' in factory " +:+ __name__ cls) in
    sqlalchemy_get_or_create (_meta cls) = before ++ field :: after
    ∧ NoDup before
    ∧ (∀ k, k ∈ before → is_Some (kw !! k))
    ∧ (kw !! field = None ∨ field ∈ before)
    ∧ (NoDup (sqlalchemy_get_or_create (_meta cls)) → kw !! field = None)
    ∧ _get_or_create cls model_class args kw st = (Raises error, st, [])
    ∧ ∀ s o (w1 : W),
        sqlalchemy_session (_meta cls) = Some s →
        model_new model_class args kw (world st) = (Returns o, w1) →
        _create cls model_class args kw st
        = (Raises error, moved st w1,
           [(Construct model_class args kw, Gave (RObj o))])
        ∧ Forall (fun c => is_session_call c = false)
            (calls (_create cls model_class args kw st).2).
Proof.
  intros Hmissing.
  destruct (pop_key_fields_raises cls _ ∅ kw Hmissing)
    as (before & field & after & Hfields & Hnd & Hall & Hwhy & Hpop).
  exists before, field, after. simpl.
  split; [done|]. split; [done|]. split; [done|]. split; [done|].
  split; [|split].
  - intros Hnodup. destruct Hwhy as [Hgone | Hdup]; [done|].
    rewrite Hfields in Hnodup. apply NoDup_app in Hnodup as (_ & Hdisj & _).
    destruct (Hdisj field Hdup). apply list_elem_of_here.
  - by apply get_or_create_missing_field.
  - intros s o w1 Hs Hnew.
    assert (Hrun : _create cls model_class args kw st
      = (Raises (FactoryError (missing_field_message cls field)),
         moved st w1, [(Construct model_class args kw, Gave (RObj o))])).
    { unfold _create. unfold bind at 1, invoke at 1. rewrite Hnew, Hs.
      destruct (sqlalchemy_get_or_create (_meta cls)) as [| f fs] eqn:Hf.
      { by destruct before. }
      unfold bind.
      rewrite (get_or_create_missing_field cls model_class args kw _)
        by (rewrite Hf; exact Hpop).
      done. }
    split; [exact Hrun|]. rewrite Hrun. simpl. by repeat constructor.
Qed.

(** *** The end of [_create]: lines 106-112 *)

Lemma apply_persistence_returns s p st r st' log :
  apply_persistence s p st = (Returns r, st', log) →
  log = policy_entries s p.
Proof.
  unfold apply_persistence, policy_entries, invoke, ret.
  destruct (py_eq p SESSION_PERSISTENCE_FLUSH).
  - destruct (session_flush s (world st)) as [[[] | e] w]; [|discriminate].
    by intros [= _ _ <-].
  - destruct (py_eq p SESSION_PERSISTENCE_COMMIT).
    + destruct (session_commit s (world st)) as [[[] | e] w];
        [|discriminate].
      by intros [= _ _ <-].
    + by intros [= _ _ <-].
Qed.

(** When lines 106-112 return, they return the object they were given,
    after asking the session whether it tracks it, adding it if not, and
    applying the policy. *)
Lemma track_and_persist_returns s p o st r st' log :
  track_and_persist s p o st = (Returns r, st', log) →
  r = o
  ∧ ∃ tracked,
      log = (Contains s o, Gave (RBool tracked))
            :: (if tracked then [] else [(Add s o, Gave RNone)])
            ++ policy_entries s p.
Proof.
  unfold track_and_persist. unfold bind at 1, invoke at 1.
  destruct (session_contains s o (world st)) as [[tracked | e] w1];
    [|discriminate].
  destruct tracked; simpl.
  - unfold bind at 1, ret at 1. unfold bind, ret.
    destruct (apply_persistence s p _) as [[[[] | e] st2] log2] eqn:Hp;
      [|discriminate].
    apply apply_persistence_returns in Hp as ->.
    intros [= <- _ <-]. split; [done|]. exists true.
    by rewrite app_nil_r.
  - unfold bind at 1, invoke at 1. simpl.
    destruct (session_add s o w1) as [[[] | e] w2]; [|discriminate].
    unfold bind, ret.
    destruct (apply_persistence s p _) as [[[[] | e] st2] log2] eqn:Hp;
      [|discriminate].
    apply apply_persistence_returns in Hp as ->.
    intros [= <- _ <-]. split; [done|]. exists false.
    simpl. by rewrite app_nil_r.
Qed.

Lemma obtain_emits cls model_class args kw constructed :
  emits (get_or_create_call model_class args (popped_key_fields cls kw))
    (obtain cls model_class args kw constructed).
Proof.
  unfold obtain. destruct (sqlalchemy_get_or_create (_meta cls)).
  - apply emits_ret.
  - apply get_or_create_emits.
Qed.

Lemma create_eq cls model_class args kw :
  _create cls model_class args kw
  = (constructed <- invoke (Construct model_class args kw)
                      (model_new model_class args kw) RObj ;;
     match sqlalchemy_session (_meta cls) with
     | None => raise (RuntimeError "No session provided.")
     | Some s =>
         o <- obtain cls model_class args kw constructed ;;
         track_and_persist s
           (sqlalchemy_session_persistence (_meta cls)) o
     end).
Proof. reflexivity. Qed.

(** A run of [_create] that returns, cut in three: the constructor call,
    the calls that obtain the object, lines 106-112. *)
Lemma create_returns cls model_class args kw st o st' log :
  _create cls model_class args kw st = (Returns o, st', log) →
  ∃ s constructed (w1 : W) st1 middle tail,
    sqlalchemy_session (_meta cls) = Some s
    ∧ model_new model_class args kw (world st) = (Returns constructed, w1)
    ∧ obtain cls model_class args kw constructed (moved st w1)
      = (Returns o, st1, middle)
    ∧ track_and_persist s (sqlalchemy_session_persistence (_meta cls)) o st1
      = (Returns o, st', tail)
    ∧ log = (Construct model_class args kw, Gave (RObj constructed))
            :: middle ++ tail.
Proof.
  rewrite create_eq. unfold bind at 1, invoke at 1.
  destruct (model_new model_class args kw (world st))
    as [[constructed | e] w1]; [|discriminate].
  destruct (sqlalchemy_session (_meta cls)) as [s|]; [|discriminate].
  unfold bind. fold (moved st w1).
  destruct (obtain cls model_class args kw constructed (moved st w1))
    as [[[o' | e] st1] middle] eqn:Hobtain; [|discriminate].
  destruct (track_and_persist s _ o' st1) as [[r st2] tail] eqn:Htail.
  intros [= -> <- <-].
  destruct (track_and_persist_returns _ _ _ _ _ _ _ Htail) as [-> _].
  by eexists s, constructed, w1, st1, middle, tail.
Qed.

Lemma policy_entries_flush_or_commit s p :
  Forall (fun c => is_flush_or_commit c = true)
    (calls (policy_entries s p)).
Proof.
  unfold policy_entries.
  destruct (py_eq p SESSION_PERSISTENCE_FLUSH);
    [|destruct (py_eq p SESSION_PERSISTENCE_COMMIT)];
    by repeat constructor.
Qed.

(** What the persistence step called, when it returned. *)
Lemma apply_persistence_worlds s p st st' log :
  apply_persistence s p st = (Returns tt, st', log) →
  _original_params st' = _original_params st
  ∧ (py_eq p SESSION_PERSISTENCE_FLUSH = true →
       session_flush s (world st) = (Returns tt, world st'))
  ∧ (py_eq p SESSION_PERSISTENCE_FLUSH = false →
       py_eq p SESSION_PERSISTENCE_COMMIT = true →
       session_commit s (world st) = (Returns tt, world st'))
  ∧ (py_eq p SESSION_PERSISTENCE_FLUSH = false →
       py_eq p SESSION_PERSISTENCE_COMMIT = false →
       world st' = world st).
Proof.
  unfold apply_persistence, invoke, ret.
  destruct (py_eq p SESSION_PERSISTENCE_FLUSH).
  - destruct (session_flush s (world st)) as [[[] | e] w] eqn:Hflush;
      [|discriminate].
    intros [= <- _]. simpl. by repeat split.
  - destruct (py_eq p SESSION_PERSISTENCE_COMMIT).
    + destruct (session_commit s (world st)) as [[[] | e] w] eqn:Hcommit;
        [|discriminate].
      intros [= <- _]. simpl. by repeat split.
    + intros [= <- _]. by repeat split.
Qed.

(** A run of lines 106-112 that returns: the calls it made on the
    session, with the worlds they were made in. *)
Lemma track_and_persist_returns_worlds s p o st r st' log :
  track_and_persist s p o st = (Returns r, st', log) →
  ∃ tracked (w3 : W),
    tracked_from s o st tracked w3
    ∧ apply_persistence s p (moved st w3)
      = (Returns tt, st', policy_entries s p)
    ∧ log = (Contains s o, Gave (RBool tracked))
            :: (if tracked then [] else [(Add s o, Gave RNone)])
            ++ policy_entries s p.
Proof.
  unfold track_and_persist, tracked_from, moved.
  unfold bind at 1, invoke at 1.
  destruct (session_contains s o (world st)) as [[tracked | e] w1]
    eqn:Htracked; [|discriminate].
  destruct tracked; simpl.
  - unfold bind at 1, ret at 1. unfold bind, ret.
    destruct (apply_persistence s p _) as [[[[] | e] st2] log2] eqn:Hp;
      [|discriminate].
    pose proof (apply_persistence_returns _ _ _ _ _ _ Hp) as ->.
    intros [= _ <- <-]. exists true, w1.
    split; [by exists w1|]. split; [done|]. by rewrite app_nil_r.
  - unfold bind at 1, invoke at 1. simpl.
    destruct (session_add s o w1) as [[[] | e] w2] eqn:Hadd;
      [|discriminate].
    unfold bind, ret.
    destruct (apply_persistence s p _) as [[[[] | e] st2] log2] eqn:Hp;
      [|discriminate].
    pose proof (apply_persistence_returns _ _ _ _ _ _ Hp) as ->.
    intros [= _ <- <-]. exists false, w2.
    split; [by exists w1|]. split; [done|]. simpl. by rewrite app_nil_r.
Qed.

(** A run of [_create] that returns [o], with the calls it made on the
    session and the worlds they were made in. *)
Lemma create_returns_worlds cls model_class args kw st o st' log :
  _create cls model_class args kw st = (Returns o, st', log) →
  ∃ s st1 before tracked (w3 : W),
    sqlalchemy_session (_meta cls) = Some s
    ∧ obtained cls model_class args kw st o st1 before
    ∧ tracked_from s o st1 tracked w3
    ∧ apply_persistence s (sqlalchemy_session_persistence (_meta cls))
        (moved st1 w3)
      = (Returns tt, st',
         policy_entries s (sqlalchemy_session_persistence (_meta cls)))
    ∧ log = before
            ++ (Contains s o, Gave (RBool tracked))
            :: (if tracked then [] else [(Add s o, Gave RNone)])
            ++ policy_entries s (sqlalchemy_session_persistence (_meta cls))
    ∧ Forall (fun c => is_flush_or_commit c = false) (calls before).
Proof.
  intros Hrun.
  destruct (create_returns _ _ _ _ _ _ _ _ Hrun)
    as (s & constructed & w1 & st1 & middle & tail
        & Hs & Hnew & Hobtain & Htail & ->).
  destruct (track_and_persist_returns_worlds _ _ _ _ _ _ _ Htail)
    as (tracked & w3 & Htracked & Hpolicy & ->).
  exists s, st1,
    ((Construct model_class args kw, Gave (RObj constructed)) :: middle),
    tracked, w3.
  split; [done|]. split; [by exists constructed, w1, middle|].
  split; [done|]. split; [done|]. split; [done|].
  simpl. constructor; [done|].
  pose proof (obtain_emits cls model_class args kw constructed (moved st w1))
    as Hmiddle.
  rewrite Hobtain in Hmiddle. simpl in Hmiddle.
  eapply Forall_impl; [exact Hmiddle|].
  intros c. apply get_or_create_call_no_flush_or_commit.
Qed.

(** C6: a run of [_create] that returns [o] has obtained [o], asked the
    session whether it tracks [o] and added it if not; call [w3] the world
    this left and [front] the calls so far, none of them a flush or a
    commit.  With the policy ['flush'], one more call follows,
    [session.flush()], made in [w3], and the world it leaves is the final
    one: exactly one flush, after the object is obtained, and no commit.
    With ['commit'], the one more call is [session.commit()], made in
    [w3].  With [None] nothing follows: the calls are [front] and the
    final world is [w3], so neither a flush nor a commit is issued. *)
Theorem persistence_policy_applied cls model_class args kw st o st' log :
  _create cls model_class args kw st = (Returns o, st', log) →
  let policy := sqlalchemy_session_persistence (_meta cls) in
  ∃ s st1 before tracked (w3 : W),
    sqlalchemy_session (_meta cls) = Some s
    ∧ obtained cls model_class args kw st o st1 before
    ∧ tracked_from s o st1 tracked w3
    ∧ let front :=
        before
        ++ (Contains s o, Gave (RBool tracked))
        :: (if tracked then [] else [(Add s o, Gave RNone)]) in
      Forall (fun c => is_flush_or_commit c = false) (calls front)
      ∧ Contains s o ∈ calls front
      ∧ (policy = SESSION_PERSISTENCE_FLUSH →
           log = front ++ [(Flush s, Gave RNone)]
           ∧ session_flush s w3 = (Returns tt, world st'))
      ∧ (policy = SESSION_PERSISTENCE_COMMIT →
           log = front ++ [(Commit s, Gave RNone)]
           ∧ session_commit s w3 = (Returns tt, world st'))
      ∧ (policy = VNone → log = front ∧ world st' = w3).
Proof.
  intros Hrun policy.
  destruct (create_returns_worlds _ _ _ _ _ _ _ _ Hrun)
    as (s & st1 & before & tracked & w3
        & Hs & Hobtained & Htracked & Hpolicy & -> & Hbefore).
  fold policy in Hpolicy |- *.
  exists s, st1, before, tracked, w3.
  split; [done|]. split; [done|]. split; [done|].
  destruct (apply_persistence_worlds _ _ _ _ _ Hpolicy)
    as (_ & Hflush & Hcommit & Hnone).
  cbv zeta. split; [|split; [|split; [|split]]].
  - unfold calls in *. rewrite fmap_app. apply Forall_app. split; [done|].
    destruct tracked; by repeat constructor.
  - unfold calls. rewrite fmap_app. apply elem_of_app. right.
    simpl. apply list_elem_of_here.
  - intros Heq. rewrite Heq in *. split; [|by apply Hflush].
    change (policy_entries s SESSION_PERSISTENCE_FLUSH)
      with [(Flush s, Gave RNone)].
    by rewrite <- app_assoc.
  - intros Heq. rewrite Heq in *. split; [|by apply Hcommit].
    change (policy_entries s SESSION_PERSISTENCE_COMMIT)
      with [(Commit s, Gave RNone)].
    by rewrite <- app_assoc.
  - intros Heq. rewrite Heq in *. split; [|by apply Hnone].
    change (policy_entries s VNone) with (@nil event).
    by rewrite app_nil_r.
Qed.

(** C8: whenever [_create] returns an object [o], whichever way it
    obtained it (plain construction, first lookup, fresh insert or
    re-lookup after a conflict), then, in the state [st1] it was in: either
    the session, asked [o in session], answered yes; or it answered no and
    [session.add(o)] was called, in the world that answer left, and
    returned.  The persistence step is applied in the world [w3] this
    leaves, and only its calls (a flush or a commit, if any) come after. *)
Theorem created_instance_is_tracked cls model_class args kw st o st' log :
  _create cls model_class args kw st = (Returns o, st', log) →
  ∃ s st1 before (w3 : W) policy,
    sqlalchemy_session (_meta cls) = Some s
    ∧ obtained cls model_class args kw st o st1 before
    ∧ ((session_contains s o (world st1) = (Returns true, w3)
        ∧ log = before ++ [(Contains s o, Gave (RBool true))] ++ policy)
       ∨ (∃ w2 : W,
            session_contains s o (world st1) = (Returns false, w2)
            ∧ session_add s o w2 = (Returns tt, w3)
            ∧ log = before
                    ++ [(Contains s o, Gave (RBool false));
                        (Add s o, Gave RNone)]
                    ++ policy))
    ∧ apply_persistence s (sqlalchemy_session_persistence (_meta cls))
        (moved st1 w3)
      = (Returns tt, st', policy)
    ∧ Forall (fun c => is_flush_or_commit c = true) (calls policy)
    ∧ Forall (fun c => is_flush_or_commit c = false) (calls before).
Proof.
  intros Hrun.
  destruct (create_returns_worlds _ _ _ _ _ _ _ _ Hrun)
    as (s & st1 & before & tracked & w3
        & Hs & Hobtained & (w2 & Htracked & Hadd) & Hpolicy & -> & Hbefore).
  exists s, st1, before, w3,
    (policy_entries s (sqlalchemy_session_persistence (_meta cls))).
  split; [done|]. split; [done|]. split; [|split; [done|split; [|done]]].
  - destruct tracked.
    + left. injection Hadd as <-. by split.
    + right. exists w2. by repeat split.
  - apply policy_entries_flush_or_commit.
Qed.

(** *** Plain insertion *)

Lemma apply_persistence_emits (P : call → Prop) s p :
  P (Flush s) → P (Commit s) → emits P (apply_persistence s p).
Proof.
  intros Hflush Hcommit. unfold apply_persistence.
  destruct (py_eq p SESSION_PERSISTENCE_FLUSH);
    [by apply emits_invoke|].
  destruct (py_eq p SESSION_PERSISTENCE_COMMIT);
    [by apply emits_invoke | apply emits_ret].
Qed.

Lemma track_and_persist_emits s p o :
  emits (fun c => is_query c = false ∧ is_construct c = false)
    (track_and_persist s p o).
Proof.
  unfold track_and_persist.
  apply emits_bind; [by apply emits_invoke|]. intros tracked.
  apply emits_bind.
  { destruct tracked; simpl; [apply emits_ret | by apply emits_invoke]. }
  intros _. apply emits_bind; [by apply apply_persistence_emits|].
  intros _. apply emits_ret.
Qed.

(** C5, as the code has it: with an empty [sqlalchemy_get_or_create],
    [_create] issues no session query; its first call is the constructor
    on the args and kwargs it was given, and it constructs nothing else;
    when the constructor has returned [o], the session is asked whether
    it tracks [o], [o] is added to the session unless the answer is yes,
    and the persistence step follows: these are all the calls, and the
    result is [o] unless that step raises. *)
Theorem create_without_get_or_create cls model_class args kw st s :
  sqlalchemy_get_or_create (_meta cls) = [] →
  sqlalchemy_session (_meta cls) = Some s →
  let run := _create cls model_class args kw st in
  Forall (fun c => is_query c = false) (calls run.2)
  ∧ (∃ out tail,
       run.2 = (Construct model_class args kw, out) :: tail
       ∧ Forall (fun c => is_construct c = false) (calls tail))
  ∧ ∀ o (w1 : W) tracked (w2 w3 : W),
      model_new model_class args kw (world st) = (Returns o, w1) →
      session_contains s o w1 = (Returns tracked, w2) →
      (if tracked then (Returns tt, w2) else session_add s o w2)
      = (Returns tt, w3) →
      run = let '(r, st4, policy) :=
              apply_persistence s
                (sqlalchemy_session_persistence (_meta cls))
                (moved st w3) in
            (match r with
             | Returns _ => Returns o
             | Raises e => Raises e
             end,
             st4,
             (Construct model_class args kw, Gave (RObj o))
             :: (Contains s o, Gave (RBool tracked))
             :: (if tracked then [] else [(Add s o, Gave RNone)])
             ++ policy).
Proof.
  intros Hfields Hs run.
  assert (Htail : ∀ o st1,
    Forall (fun c => is_query c = false ∧ is_construct c = false)
      (calls (bind (obtain cls model_class args kw o)
                (track_and_persist s
                   (sqlalchemy_session_persistence (_meta cls))) st1).2)).
  { intros o. apply emits_bind.
    - unfold obtain. rewrite Hfields. apply emits_ret.
    - apply track_and_persist_emits. }
  assert (Hlog : ∃ out tail,
    run.2 = (Construct model_class args kw, out) :: tail
    ∧ Forall (fun c => is_query c = false ∧ is_construct c = false)
        (calls tail)).
  { subst run. rewrite create_eq. unfold bind at 1, invoke at 1.
    destruct (model_new model_class args kw (world st)) as [[o | e] w1].
    - rewrite Hs. specialize (Htail o (moved st w1)).
      unfold moved in Htail.
      match goal with
      | |- context [bind ?m ?f ?st'] =>
          destruct (bind m f st') as [[r st2] log2]
      end.
      simpl in *. by eexists _, _.
    - simpl. eexists _, []. split; [done|]. constructor. }
  destruct Hlog as (out & tail & Hlog & Hcalls).
  split; [|split].
  - rewrite Hlog. simpl. constructor; [done|].
    eapply Forall_impl; [exact Hcalls|]. by intros c [? _].
  - exists out, tail. split; [done|].
    eapply Forall_impl; [exact Hcalls|]. by intros c [_ ?].
  - clear Hlog Hcalls Htail. intros o w1 tracked w2 w3 Hnew Htracked Hadd.
    subst run. unfold moved.
    unfold _create, track_and_persist, bind, ret, invoke.
    rewrite Hnew, Hs, Hfields. simpl. rewrite Htracked.
    destruct tracked; simpl.
    + injection Hadd as <-.
      destruct (apply_persistence s _ _) as [[[[] | e] st4] policy];
        simpl; by rewrite ?app_nil_r.
    + rewrite Hadd. simpl.
      destruct (apply_persistence s _ _) as [[[[] | e] st4] policy];
        simpl; by rewrite ?app_nil_r.
Qed.

(** C9, as the code has it: every constructor call [_get_or_create]
    issues is on the model class and the positional args it was given,
    and its keyword arguments are exactly the key fields with their
    values from the resolved kwargs: each field of
    [sqlalchemy_get_or_create] is passed, and no other name is. *)
Theorem constructor_receives_exactly_key_fields
    cls model_class args kw st m a k :
  Construct m a k ∈ calls (_get_or_create cls model_class args kw st).2 →
  m = model_class ∧ a = args
  ∧ (∀ f, f ∈ sqlalchemy_get_or_create (_meta cls) →
          is_Some (k !! f) ∧ k !! f = kw !! f)
  ∧ (∀ f, f ∉ sqlalchemy_get_or_create (_meta cls) → k !! f = None).
Proof.
  intros Hin.
  pose proof (get_or_create_emits cls model_class args kw st) as Hemits.
  rewrite Forall_forall in Hemits.
  destruct (Hemits _ Hin) as (-> & -> & ->).
  split; [done|]. split; [done|].
  unfold popped_key_fields.
  destruct (pop_key_fields cls (sqlalchemy_get_or_create (_meta cls)) ∅ kw)
    as [[key_fields rest] | e] eqn:Hpop.
  - destruct (pop_key_fields_returns _ _ _ _ _ _ Hpop)
      as (_ & Hall & Hkey & _).
    simpl. split.
    + intros f Hf. rewrite Hkey, decide_True by done.
      split; [by apply Hall | done].
    + intros f Hf. by rewrite Hkey, decide_False, lookup_empty.
  - rewrite (get_or_create_missing_field _ _ _ _ _ Hpop) in Hin.
    by apply elem_of_nil in Hin.
Qed.

(** *** Where a raised exception comes from *)

Lemma accounted_ret {A} known (a : A) : accounted known (ret a : M W A).
Proof. intros st e. discriminate. Qed.

Lemma accounted_raise {A} (known : exn → Prop) e :
  own_error e ∨ known e → accounted known (raise e : M W A).
Proof. intros He st e' [= <-]. tauto. Qed.

Lemma accounted_invoke {A} known c (f : W → res A * W) shown :
  accounted known (invoke c f shown).
Proof.
  intros st e. unfold invoke. destruct (f (world st)) as [[a | e'] w];
    simpl; [discriminate|].
  intros [= ->]. right; right. exists c. apply list_elem_of_here.
Qed.

Lemma accounted_bind {A B} known (m : M W A) (f : A → M W B) :
  accounted known m → (∀ a, accounted known (f a)) →
  accounted known (bind m f).
Proof.
  intros Hm Hf st e. unfold bind. specialize (Hm st).
  destruct (m st) as [[[a | e'] st1] log1]; simpl in *.
  - specialize (Hf a st1). destruct (f a st1) as [[r st2] log2].
    simpl in *. intros Hr.
    destruct (Hf e Hr) as [? | [? | [c Hc]]]; [tauto | tauto |].
    right; right. exists c. apply elem_of_app. by right.
  - intros [= ->]. by apply Hm.
Qed.

Lemma accounted_branch {A} known (test : W → bool) (m1 m2 : M W A) :
  accounted known m1 → accounted known m2 →
  accounted known (branch test m1 m2).
Proof.
  intros H1 H2 st. unfold branch.
  destruct (test (world st)); [apply H1 | apply H2].
Qed.

Lemma accounted_try_except {A} (known : exn → Prop) (m : M W A) h :
  accounted known m →
  (∀ e handler, h e = Some handler →
     accounted (fun x => known x ∨ x = e) handler) →
  accounted known (try_except m h).
Proof.
  intros Hm Hh st e. unfold try_except. specialize (Hm st).
  destruct (m st) as [[[a | e'] st1] log1]; simpl in *; [discriminate|].
  destruct (h e') as [handler|] eqn:He'; simpl.
  - specialize (Hh e' handler He' st1).
    destruct (handler st1) as [[r st2] log2]. simpl in *. intros Hr.
    destruct (Hh e Hr) as [? | [[? | ->] | [c Hc]]]; [tauto | tauto | |].
    + destruct (Hm e' eq_refl) as [? | [? | [c Hc]]]; [tauto | tauto |].
      right; right. exists c. apply elem_of_app. by left.
    + right; right. exists c. apply elem_of_app. by right.
  - intros [= ->]. by apply Hm.
Qed.

Lemma pop_key_fields_own_error cls fields acc kw e :
  pop_key_fields cls fields acc kw = Raises e → own_error e.
Proof.
  revert acc kw. induction fields as [| f fields IH]; intros acc kw; simpl.
  - discriminate.
  - destruct (kw !! f); [apply IH|]. by intros [= <-].
Qed.

Lemma recover_accounted cls s model_class e :
  accounted (fun x => False ∨ x = e) (recover cls s model_class e).
Proof.
  unfold recover. apply accounted_bind; [apply accounted_invoke|].
  intros _. apply accounted_bind.
  { intros st e'. unfold read_original_params.
    destruct (_original_params st); simpl; [discriminate|].
    intros [= <-]. by left. }
  intros original.
  destruct (dict_truthy (get_or_create_params cls original)).
  - apply accounted_try_except; [apply accounted_invoke|].
    intros e' handler. destruct e'; try discriminate.
    intros [= <-]. apply accounted_raise. right. left. by right.
  - apply accounted_raise. right. by right.
Qed.

Lemma get_or_create_accounted cls model_class args kw :
  accounted (fun _ => False) (_get_or_create cls model_class args kw).
Proof.
  unfold _get_or_create. apply accounted_bind.
  { intros st e [= Hpop]. left.
    by apply pop_key_fields_own_error in Hpop. }
  intros popped. unfold session_method.
  destruct (sqlalchemy_session (_meta cls)) as [s|];
    [|apply accounted_raise; by left].
  apply accounted_bind; [apply accounted_invoke|]. intros instance.
  apply accounted_try_except.
  - unfold create_if_missing.
    assert (Hinsert : accounted (fun _ => False)
              (instance <- invoke (Construct model_class args popped.1)
                             (model_new model_class args popped.1) RObj ;;
               invoke (Add s instance) (session_add s instance)
                 (fun _ => RNone) ;;;
               ret instance)).
    { apply accounted_bind; [apply accounted_invoke|]. intros o.
      apply accounted_bind; [apply accounted_invoke|]. intros _.
      apply accounted_ret. }
    destruct instance as [found|]; [|done].
    apply accounted_branch; [apply accounted_ret | done].
  - intros e handler. destruct e; try discriminate.
    intros [= <-]. apply recover_accounted.
Qed.

(** An exception out of [_create] that is not one the adapter raises
    itself was thrown by one of the calls in the log. *)
Lemma create_accounted cls model_class args kw :
  accounted (fun _ => False) (_create cls model_class args kw).
Proof.
  unfold _create. apply accounted_bind; [apply accounted_invoke|].
  intros constructed.
  destruct (sqlalchemy_session (_meta cls)) as [s|];
    [|apply accounted_raise; by left].
  apply accounted_bind.
  { destruct (sqlalchemy_get_or_create (_meta cls));
      [apply accounted_ret | apply get_or_create_accounted]. }
  intros o. unfold track_and_persist.
  apply accounted_bind; [apply accounted_invoke|]. intros tracked.
  apply accounted_bind.
  { destruct tracked; simpl; [apply accounted_ret | apply accounted_invoke]. }
  intros _. apply accounted_bind; [|intros _; apply accounted_ret].
  unfold apply_persistence.
  destruct (py_eq _ SESSION_PERSISTENCE_FLUSH); [apply accounted_invoke|].
  destruct (py_eq _ SESSION_PERSISTENCE_COMMIT);
    [apply accounted_invoke | apply accounted_ret].
Qed.

End Runs.

(** ** Options are checked when the factory is defined *)

Lemma build_options_app (meta : string) (declared inherited : kwargs)
    (first second : list OptionDefault) :
  build_options meta declared inherited (first ++ second)
  = match build_options meta declared inherited first with
    | Raises e => Raises e
    | Returns built1 =>
        match build_options meta declared inherited second with
        | Raises e => Raises e
        | Returns built2 => Returns (built1 ++ built2)
        end
    end.
Proof.
  induction first as [| o first IH]; simpl.
  - by destruct (build_options meta declared inherited second).
  - destruct (apply_option meta declared inherited o); [|done].
    rewrite IH.
    destruct (build_options meta declared inherited first); [|done].
    by destruct (build_options meta declared inherited second).
Qed.

(** C7: take a factory definition whose [Meta] declares
    [sqlalchemy_session_persistence = v], the engine's own options being
    fine.  If [v] is not one of [None], ['commit'], ['flush'], the checker
    raises its TypeError and so does the building of the options, that is,
    the definition of the factory.  If [v] is one of them, the checker
    returns, the options are built with that value, and [_create] on a
    factory with that policy raises no such TypeError of its own: one that
    comes out of it was thrown by a call it made. *)
Theorem persistence_checked_at_definition
    (meta : string) (declared inherited : kwargs)
    (super_options : list OptionDefault) (built : list (string * pyval))
    (v : pyval) :
  build_options meta declared inherited super_options = Returns built →
  declared !! "sqlalchemy_session_persistence" = Some v →
  let options := SQLAlchemyOptions._build_default_options super_options in
  (v ∉ VALID_SESSION_PERSISTENCE_TYPES →
     SQLAlchemyOptions._check_sqlalchemy_session_persistence meta v
     = Raises (TypeError meta VALID_SESSION_PERSISTENCE_TYPES v)
     ∧ build_options meta declared inherited options
       = Raises (TypeError meta VALID_SESSION_PERSISTENCE_TYPES v))
  ∧ (v ∈ VALID_SESSION_PERSISTENCE_TYPES →
       SQLAlchemyOptions._check_sqlalchemy_session_persistence meta v
       = Returns tt
       ∧ (∃ fields session,
            build_options meta declared inherited options
            = Returns (built ++ [("sqlalchemy_get_or_create", fields);
                                 ("sqlalchemy_session", session);
                                 ("sqlalchemy_session_persistence", v)]))
       ∧ ∀ (W : Type) (orm : ORM W) cls model_class args kw
           (st : pstate W) m valid got,
           sqlalchemy_session_persistence (_meta cls) = v →
           (_create cls model_class args kw st).1.1
           = Raises (TypeError m valid got) →
           ∃ c, (c, Threw (TypeError m valid got))
                ∈ (_create cls model_class args kw st).2).
Proof.
  intros Hsuper Hdeclared options. subst options.
  unfold SQLAlchemyOptions._build_default_options.
  rewrite build_options_app, Hsuper. simpl.
  unfold apply_option. simpl. rewrite Hdeclared. simpl.
  split.
  - intros Hout. rewrite (check_rejects meta v Hout). by split.
  - intros Hin. rewrite (check_accepts meta v Hin).
    split; [done|]. split; [by eexists _, _|].
    intros W orm cls model_class args kw st m valid got _ Hraised.
    destruct (create_accounted cls model_class args kw st _ Hraised)
      as [[] | [[] | Hlogged]].
    exact Hlogged.
Qed.

(** ** The theorems at work on the scripted ORM *)

Module Examples.

Import Scripted.

Lemma pop_ann :
  pop_key_fields (user_factory VNone) ["name"] ∅ ann
  = Returns (name_ann, age_only).
Proof. vm_compute. reflexivity. Qed.






Lemma get_or_create_constructs_from_key_fields_witness :
  _get_or_create (user_factory VNone) "User" [] ann (start empty_db None)
  = (Returns 1%nat, start (track 1%nat empty_db) None,
     [(QueryOneOrNone the_session "User" [] name_ann, Gave RNone);
      (Construct "User" [] name_ann, Gave (RObj 1%nat));
      (Add the_session 1%nat, Gave RNone)]).
Proof.
  destruct (get_or_create_constructs_from_key_fields (user_factory VNone)
              "User" [] ann (start empty_db None) the_session name_ann
              age_only empty_db)
    as (_ & _ & _ & Hrun & _).
  - discriminate.
  - reflexivity.
  - exact pop_ann.
  - reflexivity.
  - exact (Hrun 1%nat empty_db (track 1%nat empty_db) eq_refl eq_refl).
Defined.

Lemma missing_key_field_raises_before_any_call_witness :
  _get_or_create (user_factory VNone) "User" [] age_only
    (start empty_db None)
  = (Raises (FactoryError
               ("sqlalchemy_get_or_create - Unable to find "
                +:+ "initialization value for 'name' in factory "
                +:+ "UserFactory")),
     start empty_db None, [])
  ∧ _create (user_factory VNone) "User" [] age_only (start empty_db None)
    = (Raises (FactoryError
                 ("sqlalchemy_get_or_create - Unable to find "
                  +:+ "initialization value for 'name' in factory "
                  +:+ "UserFactory")),
       start empty_db None,
       [(Construct "User" [] age_only, Gave (RObj 1%nat))]).
Proof.
  destruct (missing_key_field_raises_before_any_call (user_factory VNone)
              "User" [] age_only (start empty_db None))
    as (before & field & after & Hfields & _ & _ & _ & _ & Hgoc & Hcreate).
  - exists "name". split; [apply list_elem_of_here | reflexivity].
  - assert (field = "name") as ->.
    { destruct before as [| f before]; simpl in Hfields.
      - by injection Hfields as <- _.
      - injection Hfields as _ Hrest. by destruct before. }
    split; [exact Hgoc|].
    by destruct (Hcreate the_session 1%nat empty_db eq_refl eq_refl).
Defined.

Lemma create_without_get_or_create_witness :
  _create (plain_factory (VStr "commit")) "User" [] ann
    (start empty_db None)
  = (Returns 1%nat, start (track 1%nat empty_db) None,
     [(Construct "User" [] ann, Gave (RObj 1%nat));
      (Contains the_session 1%nat, Gave (RBool false));
      (Add the_session 1%nat, Gave RNone);
      (Commit the_session, Gave RNone)]).
Proof.
  destruct (create_without_get_or_create (plain_factory (VStr "commit"))
              "User" [] ann (start empty_db None) the_session
              eq_refl eq_refl)
    as (_ & _ & Hrun).
  exact (Hrun 1%nat empty_db false empty_db (track 1%nat empty_db)
           eq_refl eq_refl eq_refl).
Defined.

(** C5, as the spec words it, fails: here [sqlalchemy_get_or_create] is
    empty and [_create] returns the object it constructed, and yet no
    [session.add] is issued, because the session already tracks the
    object when line 106 asks. *)
Lemma plain_create_skips_add_when_tracked :
  let run := _create (plain_factory VNone) "User" [] ann
               (start cascading None) in
  sqlalchemy_get_or_create (_meta (plain_factory VNone)) = []
  ∧ run.1.1 = Returns 1%nat
  ∧ calls run.2 = [Construct "User" [] ann; Contains the_session 1%nat]
  ∧ ¬ ∃ s o, Add s o ∈ calls run.2.
Proof.
  assert (Hlog : calls (_create (plain_factory VNone) "User" [] ann
                          (start cascading None)).2
                 = [Construct "User" [] ann; Contains the_session 1%nat])
    by (vm_compute; reflexivity).
  cbv zeta. split; [reflexivity|]. split; [vm_compute; reflexivity|].
  split; [exact Hlog|].
  rewrite Hlog. intros (s & o & Hin).
  apply elem_of_cons in Hin as [Hin | Hin]; [discriminate|].
  apply elem_of_cons in Hin as [Hin | Hin]; [discriminate|].
  by apply elem_of_nil in Hin.
Qed.

Lemma persistence_policy_applied_witness :
  ∃ s before (w3 : stub),
    (_create (user_factory (VStr "flush")) "User" [] ann
       (start empty_db None)).2
    = before ++ [(Flush s, Gave RNone)]
    ∧ Forall (fun c => is_flush_or_commit c = false) (calls before)
    ∧ Contains s 1%nat ∈ calls before
    ∧ session_flush s w3
      = (Returns tt,
         world (_create (user_factory (VStr "flush")) "User" [] ann
                  (start empty_db None)).1.2).
Proof.
  pose (run := _create (user_factory (VStr "flush")) "User" [] ann
                 (start empty_db None)).
  assert (Hrun : _create (user_factory (VStr "flush")) "User" [] ann
                   (start empty_db None)
                 = (Returns 1%nat, run.1.2, run.2))
    by (vm_compute; reflexivity).
  destruct (persistence_policy_applied _ _ _ _ _ _ _ _ Hrun)
    as (s & st1 & before & tracked & w3 & _ & _ & _ & Hrest).
  cbv zeta in Hrest. destruct Hrest as (Hquiet & Hseen & Hflush & _).
  destruct (Hflush eq_refl) as [Hlog Hworld].
  eexists s, _, w3. split; [exact Hlog|].
  split; [exact Hquiet|]. split; [exact Hseen | exact Hworld].
Defined.

Lemma created_instance_is_tracked_witness :
  ∃ s before policy,
    sqlalchemy_session (_meta (user_factory (VStr "flush")))
    = Some s
    ∧ ((_create (user_factory (VStr "flush")) "User" [] ann
          (start row_exists None)).2
       = before ++ [(Contains s 7%nat, Gave (RBool true))] ++ policy
       ∨ (_create (user_factory (VStr "flush")) "User" [] ann
            (start row_exists None)).2
         = before
           ++ [(Contains s 7%nat, Gave (RBool false));
               (Add s 7%nat, Gave RNone)]
           ++ policy)
    ∧ Forall (fun c => is_flush_or_commit c = true) (calls policy)
    ∧ Forall (fun c => is_flush_or_commit c = false) (calls before).
Proof.
  pose (run := _create (user_factory (VStr "flush")) "User" [] ann
                 (start row_exists None)).
  assert (Hrun : _create (user_factory (VStr "flush")) "User" [] ann
                   (start row_exists None)
                 = (Returns 7%nat, run.1.2, run.2))
    by (vm_compute; reflexivity).
  destruct (created_instance_is_tracked _ _ _ _ _ _ _ _ Hrun)
    as (s & st1 & before & w3 & policy
        & Hs & _ & Hadded & _ & Hpolicy & Hbefore).
  exists s, before, policy. split; [exact Hs|].
  split; [|split; [exact Hpolicy | exact Hbefore]].
  destruct Hadded as [[_ Hlog] | (w2 & _ & _ & Hlog)];
    [left | right]; exact Hlog.
Defined.

Lemma constructor_call_of_empty_db :
  calls (_get_or_create (user_factory VNone) "User" [] ann
           (start empty_db None)).2
  = [QueryOneOrNone the_session "User" [] name_ann;
     Construct "User" [] name_ann;
     Add the_session 1%nat].
Proof. vm_compute. reflexivity. Qed.

Lemma constructor_receives_exactly_key_fields_witness :
  name_ann !! "name" = ann !! "name" ∧ name_ann !! "age" = None.
Proof.
  destruct (constructor_receives_exactly_key_fields (user_factory VNone)
              "User" [] ann (start empty_db None) "User" [] name_ann)
    as (_ & _ & Hkeys & Hothers).
  - rewrite constructor_call_of_empty_db.
    apply list_elem_of_further, list_elem_of_here.
  - split.
    + apply (Hkeys "name"). apply list_elem_of_here.
    + apply (Hothers "age"). intros Hin.
      apply elem_of_cons in Hin as [Hin | Hin]; [discriminate|].
      by apply elem_of_nil in Hin.
Defined.

(** C9, as the spec words it, fails: here [_get_or_create] constructs a
    new instance and ['name'], a field of [sqlalchemy_get_or_create], is
    a keyword argument of that constructor call. *)
Lemma key_field_is_passed_to_constructor :
  ∃ k,
    Construct "User" [] k
    ∈ calls (_get_or_create (user_factory VNone) "User" [] ann
               (start empty_db None)).2
    ∧ "name" ∈ sqlalchemy_get_or_create (_meta (user_factory VNone))
    ∧ k !! "name" = Some (VStr "ann").
Proof.
  exists name_ann. rewrite constructor_call_of_empty_db.
  split; [apply list_elem_of_further, list_elem_of_here|].
  split; [apply list_elem_of_here | reflexivity].
Qed.

Lemma persistence_checked_at_definition_witness :
  build_options "UserFactory.Meta"
    (<["sqlalchemy_session_persistence" := VStr "none"]> ∅) ∅
    (SQLAlchemyOptions._build_default_options [])
  = Raises (TypeError "UserFactory.Meta"
              [VNone; VStr "commit"; VStr "flush"] (VStr "none")).
Proof.
  destruct (persistence_checked_at_definition "UserFactory.Meta"
              (<["sqlalchemy_session_persistence" := VStr "none"]> ∅) ∅
              [] [] (VStr "none"))
    as [Hrejected _].
  - reflexivity.
  - vm_compute. reflexivity.
  - apply Hrejected.
    intros Hin. apply valid_values in Hin as [H | [H | H]]; discriminate.
Defined.

End Examples.

(** * Further properties of the adapter *)

Section Further.

Context {W : Type} `{!ORM W}.

Implicit Types (cls : Factory) (model_class : string) (args : list pyval)
  (kw key_fields rest original : kwargs) (st : pstate W) (s : Session)
  (o row : obj).

Local Abbreviation emits := (emits (W := W)).
Local Abbreviation keeps := (keeps (W := W)).

(** ** Running [bind] and [try_except] *)

Lemma bind_returns {A B} (m : M W A) (f : A → M W B) st a st1 log1 :
  m st = (Returns a, st1, log1) →
  bind m f st = let '(r, st2, log2) := f a st1 in (r, st2, log1 ++ log2).
Proof. intros Hm. unfold bind. by rewrite Hm. Qed.

Lemma bind_raises {A B} (m : M W A) (f : A → M W B) st e st1 log1 :
  m st = (Raises e, st1, log1) → bind m f st = (Raises e, st1, log1).
Proof. intros Hm. unfold bind. by rewrite Hm. Qed.

Lemma try_except_returns {A} (m : M W A) h st a st1 log1 :
  m st = (Returns a, st1, log1) →
  try_except m h st = (Returns a, st1, log1).
Proof. intros Hm. unfold try_except. by rewrite Hm. Qed.



(** ** The runs of [_get_or_create], by what the first lookup answers *)

Lemma get_or_create_after_lookup
    cls model_class args kw st s key_fields rest instance (w1 : W) :
  sqlalchemy_session (_meta cls) = Some s →
  pop_key_fields cls (sqlalchemy_get_or_create (_meta cls)) ∅ kw
    = Returns (key_fields, rest) →
  one_or_none s model_class args key_fields (world st)
    = (Returns instance, w1) →
  _get_or_create cls model_class args kw st
  = let '(r, st2, log2) :=
      try_except
        (create_if_missing s model_class args key_fields instance)
        (on_integrity_error cls s model_class) (moved st w1) in
    (r, st2, looked_up s model_class args key_fields instance :: log2).
Proof.
  intros Hs Hpop Hq. unfold _get_or_create.
  rewrite Hpop, bind_lift_returns, Hs. simpl.
  unfold bind at 1, invoke at 1. rewrite Hq.
  unfold looked_up, on_integrity_error, moved. simpl.
  by destruct (try_except _ _ _) as [[r st2] log2].
Qed.

Lemma get_or_create_hit
    cls model_class args kw st s key_fields rest row (w1 : W) :
  sqlalchemy_session (_meta cls) = Some s →
  pop_key_fields cls (sqlalchemy_get_or_create (_meta cls)) ∅ kw
    = Returns (key_fields, rest) →
  one_or_none s model_class args key_fields (world st)
    = (Returns (Some row), w1) →
  truthy row w1 = true →
  _get_or_create cls model_class args kw st
  = (Returns row, moved st w1,
     [looked_up s model_class args key_fields (Some row)]).
Proof.
  intros Hs Hpop Hq Htruthy.
  rewrite (get_or_create_after_lookup _ _ _ _ _ _ _ _ _ _ Hs Hpop Hq).
  unfold try_except, create_if_missing, branch, ret, moved. simpl.
  by rewrite Htruthy.
Qed.

Lemma get_or_create_miss
    cls model_class args kw st s key_fields rest o (w1 w2 w3 : W) :
  sqlalchemy_session (_meta cls) = Some s →
  pop_key_fields cls (sqlalchemy_get_or_create (_meta cls)) ∅ kw
    = Returns (key_fields, rest) →
  one_or_none s model_class args key_fields (world st)
    = (Returns None, w1) →
  model_new model_class args key_fields w1 = (Returns o, w2) →
  session_add s o w2 = (Returns tt, w3) →
  _get_or_create cls model_class args kw st
  = (Returns o, moved st w3,
     [looked_up s model_class args key_fields None;
      (Construct model_class args key_fields, Gave (RObj o));
      (Add s o, Gave RNone)]).
Proof.
  intros Hs Hpop Hq Hnew Hadd.
  rewrite (get_or_create_after_lookup _ _ _ _ _ _ _ _ _ _ Hs Hpop Hq).
  unfold try_except, create_if_missing, bind, invoke, ret, moved. simpl.
  rewrite Hnew. simpl. by rewrite Hadd.
Qed.


(** ** The runs of [_create] *)

(** Lines 106-112 once the membership test and, if it is needed, [add]
    have returned. *)
Lemma track_and_persist_run s p o st tracked (w1 w2 : W) :
  session_contains s o (world st) = (Returns tracked, w1) →
  (if tracked then (Returns tt, w1) else session_add s o w1)
  = (Returns tt, w2) →
  track_and_persist s p o st
  = let '(r, st4, policy) := apply_persistence s p (moved st w2) in
    (match r with
     | Returns _ => Returns o
     | Raises e => Raises e
     end,
     st4,
     (Contains s o, Gave (RBool tracked))
     :: (if tracked then [] else [(Add s o, Gave RNone)]) ++ policy).
Proof.
  intros Htracked Hadd. unfold track_and_persist, moved.
  unfold bind, ret, invoke. rewrite Htracked.
  destruct tracked; simpl.
  - injection Hadd as <-.
    destruct (apply_persistence s p _) as [[[[] | e] st4] policy];
      simpl; by rewrite ?app_nil_r.
  - rewrite Hadd. simpl.
    destruct (apply_persistence s p _) as [[[[] | e] st4] policy];
      simpl; by rewrite ?app_nil_r.
Qed.

(** [_create] on a get-or-create factory with a session, once the
    constructor call of line 101 has returned. *)
Lemma create_through_get_or_create
    cls model_class args kw st s constructed (w1 : W) :
  sqlalchemy_get_or_create (_meta cls) ≠ [] →
  sqlalchemy_session (_meta cls) = Some s →
  model_new model_class args kw (world st) = (Returns constructed, w1) →
  _create cls model_class args kw st
  = let '(r, st2, log2) :=
      bind (_get_or_create cls model_class args kw)
        (track_and_persist s (sqlalchemy_session_persistence (_meta cls)))
        (moved st w1) in
    (r, st2, (Construct model_class args kw, Gave (RObj constructed))
             :: log2).
Proof.
  intros Hfields Hs Hnew. unfold _create.
  unfold bind at 1, invoke at 1. rewrite Hnew, Hs.
  by destruct (sqlalchemy_get_or_create (_meta cls)).
Qed.

(** X1: on a factory without a session, [_create] still calls the
    constructor first; when that call returns, RuntimeError("No session
    provided.") is raised and the constructor call is the only call made.
    When the constructor itself raises, its exception is what [_create]
    raises, session or not. *)
Theorem create_without_session cls model_class args kw st :
  sqlalchemy_session (_meta cls) = None →
  (∀ o (w1 : W),
     model_new model_class args kw (world st) = (Returns o, w1) →
     _create cls model_class args kw st
     = (Raises (RuntimeError "No session provided."), moved st w1,
        [(Construct model_class args kw, Gave (RObj o))]))
  ∧ (∀ e (w1 : W),
       model_new model_class args kw (world st) = (Raises e, w1) →
       _create cls model_class args kw st
       = (Raises e, moved st w1,
          [(Construct model_class args kw, Threw e)])).
Proof.
  intros Hs. split.
  - intros o w1 Hnew. unfold _create, bind, invoke, raise.
    by rewrite Hnew, Hs.
  - intros e w1 Hnew. unfold _create, bind, invoke. by rewrite Hnew.
Qed.

(** X2: [_create] on a get-or-create factory, when the first lookup
    returns a row that is truthy and that the session tracks: the result is
    that row; the object line 101 constructed from all the kwargs is
    dropped, never added; no [add] is issued at all; the calls are the
    constructor, the lookup, the membership test on the row and the
    persistence step. *)
Theorem create_reuses_existing_row
    cls model_class args kw st s key_fields rest constructed row
    (w1 w2 w3 : W) :
  sqlalchemy_get_or_create (_meta cls) ≠ [] →
  sqlalchemy_session (_meta cls) = Some s →
  pop_key_fields cls (sqlalchemy_get_or_create (_meta cls)) ∅ kw
    = Returns (key_fields, rest) →
  model_new model_class args kw (world st) = (Returns constructed, w1) →
  one_or_none s model_class args key_fields w1 = (Returns (Some row), w2) →
  truthy row w2 = true →
  session_contains s row w2 = (Returns true, w3) →
  _create cls model_class args kw st
  = let '(r, st4, policy) :=
      apply_persistence s (sqlalchemy_session_persistence (_meta cls))
        (moved st w3) in
    (match r with
     | Returns _ => Returns row
     | Raises e => Raises e
     end,
     st4,
     [(Construct model_class args kw, Gave (RObj constructed));
      looked_up s model_class args key_fields (Some row);
      (Contains s row, Gave (RBool true))] ++ policy).
Proof.
  intros Hfields Hs Hpop Hnew Hq Htruthy Htracked.
  rewrite (create_through_get_or_create _ _ _ _ _ _ _ _ Hfields Hs Hnew).
  rewrite (bind_returns _ _ _ _ _ _
             (get_or_create_hit cls model_class args kw (moved st w1)
                s key_fields rest row w2 Hs Hpop Hq Htruthy)).
  rewrite (track_and_persist_run s _ row (moved (moved st w1) w2) true w3 w3
             Htracked eq_refl).
  unfold moved. simpl.
  by destruct (apply_persistence s _ _) as [[r st4] policy].
Qed.

(** X3: [_create] on a get-or-create factory, when the first lookup finds
    nothing: the constructor is called twice, first (line 101) with all the
    resolved kwargs, then (line 73) with the key fields only; the result,
    and the object added to the session, is the second one, so the non-key
    kwargs do not reach the object that is returned. *)
Theorem create_inserts_object_built_from_key_fields
    cls model_class args kw st s key_fields rest constructed o tracked
    (w1 w2 w3 w4 w5 w6 : W) :
  sqlalchemy_get_or_create (_meta cls) ≠ [] →
  sqlalchemy_session (_meta cls) = Some s →
  pop_key_fields cls (sqlalchemy_get_or_create (_meta cls)) ∅ kw
    = Returns (key_fields, rest) →
  model_new model_class args kw (world st) = (Returns constructed, w1) →
  one_or_none s model_class args key_fields w1 = (Returns None, w2) →
  model_new model_class args key_fields w2 = (Returns o, w3) →
  session_add s o w3 = (Returns tt, w4) →
  session_contains s o w4 = (Returns tracked, w5) →
  (if tracked then (Returns tt, w5) else session_add s o w5)
  = (Returns tt, w6) →
  _create cls model_class args kw st
  = let '(r, st4, policy) :=
      apply_persistence s (sqlalchemy_session_persistence (_meta cls))
        (moved st w6) in
    (match r with
     | Returns _ => Returns o
     | Raises e => Raises e
     end,
     st4,
     [(Construct model_class args kw, Gave (RObj constructed));
      looked_up s model_class args key_fields None;
      (Construct model_class args key_fields, Gave (RObj o));
      (Add s o, Gave RNone);
      (Contains s o, Gave (RBool tracked))]
     ++ (if tracked then [] else [(Add s o, Gave RNone)]) ++ policy).
Proof.
  intros Hfields Hs Hpop Hnew Hq Hnew2 Hadd Htracked Hadd2.
  rewrite (create_through_get_or_create _ _ _ _ _ _ _ _ Hfields Hs Hnew).
  rewrite (bind_returns _ _ _ _ _ _
             (get_or_create_miss cls model_class args kw (moved st w1)
                s key_fields rest o w2 w3 w4 Hs Hpop Hq Hnew2 Hadd)).
  rewrite (track_and_persist_run s _ o (moved (moved st w1) w4) tracked w5 w6
             Htracked Hadd2).
  unfold moved. simpl.
  by destruct (apply_persistence s _ _) as [[r st4] policy].
Qed.





(** ** The shape of every log *)

Lemma create_if_missing_insert_calls s model_class args key_fields instance :
  emits (fun c => is_insert_call c = true)
    (create_if_missing s model_class args key_fields instance).
Proof.
  unfold create_if_missing.
  assert (Hinsert : emits (fun c => is_insert_call c = true)
            (instance <- invoke (Construct model_class args key_fields)
                           (model_new model_class args key_fields) RObj ;;
             invoke (Add s instance) (session_add s instance)
               (fun _ => RNone) ;;;
             ret instance)).
  { apply emits_bind; [by apply emits_invoke|].
    intros o. apply emits_bind; [by apply emits_invoke|].
    intros _. apply emits_ret. }
  destruct instance as [found|]; [|done].
  apply emits_branch; [apply emits_ret | done].
Qed.

(** When the [try] body raises, the exception was thrown by its last
    call. *)
Lemma create_if_missing_raises
    s model_class args key_fields instance st e st2 attempt :
  create_if_missing s model_class args key_fields instance st
    = (Raises e, st2, attempt) →
  ∃ front c, attempt = front ++ [(c, Threw e)].
Proof.
  unfold create_if_missing, branch, bind, invoke, ret.
  destruct instance as [found|];
    [destruct (truthy found (world st)); [discriminate|]|];
    (destruct (model_new model_class args key_fields (world st))
       as [[o | e'] w2]; simpl;
     [destruct (session_add s o w2) as [[[] | e'] w3]; simpl;
        [discriminate|];
      intros [= <- _ <-]; by eexists [_], _
     |intros [= <- _ <-]; by eexists [], _]).
Qed.

(** The calls of the handler: the rollback, then at most the re-lookup,
    filtered by the stored original parameters restricted to the key
    fields, which are then not empty. *)
Lemma recover_log cls s model_class e st :
  ∃ out relookup,
    (recover cls s model_class e st).2 = (Rollback s, out) :: relookup
    ∧ (relookup = []
       ∨ ∃ original out',
           _original_params st = Some original
           ∧ get_or_create_params cls original ≠ ∅
           ∧ relookup
             = [(QueryOne s model_class (get_or_create_params cls original),
                 out')]).
Proof.
  unfold recover. unfold bind at 1, invoke at 1.
  destruct (session_rollback s (world st)) as [[[] | e'] w3];
    [|eexists _, []; by split; [|left]].
  unfold bind, read_original_params. simpl.
  destruct (_original_params st) as [original|];
    [|eexists _, []; by split; [|left]].
  destruct (dict_truthy (get_or_create_params cls original)) eqn:Htruthy;
    [|eexists _, []; by split; [|left]].
  apply dict_truthy_nonempty in Htruthy.
  unfold try_except, invoke, raise. simpl.
  destruct (one s model_class (get_or_create_params cls original) w3)
    as [[row | e'] w4]; simpl.
  - eexists _, _. split; [done|]. right. by eexists _, _.
  - destruct e'; simpl;
      (eexists _, _; split; [done|]; right; by eexists _, _).
Qed.

(** The log of [_get_or_create] is empty, or it is the first lookup, the
    calls of the insert attempt, and, only when the last of these threw
    an IntegrityError, the calls of the handler. *)
Lemma get_or_create_log cls model_class args kw st :
  (_get_or_create cls model_class args kw st).2 = []
  ∨ ∃ s out attempt recovery,
      sqlalchemy_session (_meta cls) = Some s
      ∧ (_get_or_create cls model_class args kw st).2
        = (QueryOneOrNone s model_class args (popped_key_fields cls kw), out)
          :: attempt ++ recovery
      ∧ Forall (fun c => is_insert_call c = true) (calls attempt)
      ∧ (recovery = []
         ∨ ∃ front c detail out' relookup,
             attempt = front ++ [(c, Threw (IntegrityError detail))]
             ∧ recovery = (Rollback s, out') :: relookup
             ∧ (relookup = []
                ∨ ∃ original out'',
                    _original_params st = Some original
                    ∧ get_or_create_params cls original ≠ ∅
                    ∧ relookup
                      = [(QueryOne s model_class
                            (get_or_create_params cls original), out'')])).
Proof.
  unfold _get_or_create, popped_key_fields.
  destruct (pop_key_fields cls (sqlalchemy_get_or_create (_meta cls)) ∅ kw)
    as [[key_fields rest] | e] eqn:Hpop;
    [|rewrite bind_lift_raises; by left].
  rewrite bind_lift_returns. simpl. unfold session_method.
  destruct (sqlalchemy_session (_meta cls)) as [s|]; [|by left].
  right. exists s. unfold bind at 1, invoke at 1.
  destruct (one_or_none s model_class args key_fields (world st))
    as [[instance | e] w1];
    [|eexists _, [], []; split; [done|]; split; [done|];
      split; [constructor | by left]].
  fold (moved st w1). unfold try_except.
  pose proof (create_if_missing_insert_calls s model_class args key_fields
                instance (moved st w1)) as Hcalls.
  pose proof (create_if_missing_keeps s model_class args key_fields
                instance (moved st w1)) as Hkeep.
  destruct (create_if_missing s model_class args key_fields instance
              (moved st w1)) as [[[o | e] st2] attempt] eqn:Htry;
    simpl in Hcalls, Hkeep.
  - eexists _, attempt, []. rewrite app_nil_r.
    split; [done|]. split; [done|]. split; [done | by left].
  - destruct (create_if_missing_raises _ _ _ _ _ _ _ _ _ Htry)
      as (front & c & Hlast).
    destruct e;
      try (eexists _, attempt, []; rewrite app_nil_r;
           split; [done|]; split; [done|]; split; [done | by left]).
    destruct (recover_log cls s model_class (IntegrityError detail) st2)
      as (out' & relookup & Hlog & Hrelookup).
    destruct (recover cls s model_class (IntegrityError detail) st2)
      as [[r st4] log4]. simpl in Hlog. subst log4.
    eexists _, attempt, _. split; [done|]. split; [done|].
    split; [done|]. right. exists front, c, detail, out', relookup.
    split; [done|]. split; [done|].
    destruct Hrelookup as [-> | (original & out'' & Hstored & Hne & ->)];
      [by left|].
    right. exists original, out''. split; [congruence | done].
Qed.

Lemma track_and_persist_tail s p o :
  emits (fun c => is_rollback c = false ∧ is_query c = false)
    (track_and_persist s p o).
Proof.
  unfold track_and_persist.
  apply emits_bind; [by apply emits_invoke|]. intros tracked.
  apply emits_bind.
  { destruct tracked; simpl; [apply emits_ret | by apply emits_invoke]. }
  intros _. apply emits_bind; [by apply apply_persistence_emits|].
  intros _. apply emits_ret.
Qed.

(** The log of [_create]: the constructor call of line 101, then nothing
    or a log of [_get_or_create] (run with the same stored parameters),
    then calls that are neither a rollback nor a query. *)
Lemma create_log cls model_class args kw st :
  ∃ out middle tail,
    (_create cls model_class args kw st).2
    = (Construct model_class args kw, out) :: middle ++ tail
    ∧ (middle = []
       ∨ ∃ w1 : W,
           middle = (_get_or_create cls model_class args kw (moved st w1)).2)
    ∧ Forall (fun c => is_rollback c = false ∧ is_query c = false)
        (calls tail).
Proof.
  rewrite create_eq. unfold bind at 1, invoke at 1.
  destruct (model_new model_class args kw (world st)) as [[c | e] w1];
    [|eexists _, [], []; split; [done|]; split; [by left | constructor]].
  destruct (sqlalchemy_session (_meta cls)) as [s|];
    [|eexists _, [], []; split; [done|]; split; [by left | constructor]].
  fold (moved st w1). unfold bind, obtain.
  destruct (sqlalchemy_get_or_create (_meta cls)) as [| f fs].
  - pose proof (track_and_persist_tail s
                  (sqlalchemy_session_persistence (_meta cls)) c
                  (moved st w1)) as Htail.
    unfold ret.
    destruct (track_and_persist s _ c (moved st w1)) as [[r st2] tail].
    eexists _, [], tail. split; [done|]. split; [by left | done].
  - destruct (_get_or_create cls model_class args kw (moved st w1))
      as [[[o | e] st1] middle] eqn:Hgoc.
    + pose proof (track_and_persist_tail s
                    (sqlalchemy_session_persistence (_meta cls)) o st1)
        as Htail.
      destruct (track_and_persist s _ o st1) as [[r st2] tail].
      eexists _, middle, tail. split; [done|].
      split; [right; exists w1; by rewrite Hgoc | done].
    + eexists _, middle, []. rewrite app_nil_r. split; [done|].
      split; [right; exists w1; by rewrite Hgoc | constructor].
Qed.

Lemma not_rollback_in (log : list event) s :
  Forall (fun c => is_rollback c = false) (calls log) →
  Rollback s ∉ calls log.
Proof.
  intros Hall Hin. rewrite Forall_forall in Hall.
  by specialize (Hall _ Hin).
Qed.

Lemma insert_calls_no_rollback (log : list event) :
  Forall (fun c => is_insert_call c = true) (calls log) →
  Forall (fun c => is_rollback c = false) (calls log).
Proof. intros Hall. eapply Forall_impl; [exact Hall|]. by intros []. Qed.

Lemma get_or_create_rollback cls model_class args kw st s :
  Rollback s ∈ calls (_get_or_create cls model_class args kw st).2 →
  follows_integrity_error s (_get_or_create cls model_class args kw st).2.
Proof.
  destruct (get_or_create_log cls model_class args kw st)
    as [-> | (s0 & out & attempt & recovery & Hs & -> & Hattempt & Hrec)].
  { intros Hin. by apply elem_of_nil in Hin. }
  apply insert_calls_no_rollback in Hattempt as Hquiet.
  destruct Hrec
    as [-> | (front & c & detail & out' & relookup & -> & -> & Hrelookup)].
  { rewrite app_nil_r. intros Hin. unfold calls in Hin.
    rewrite fmap_cons, elem_of_cons in Hin.
    destruct Hin as [Hin | Hin]; [discriminate|].
    by apply (not_rollback_in attempt) in Hin. }
  unfold calls in Hattempt, Hquiet. rewrite fmap_app in Hattempt, Hquiet.
  apply Forall_app in Hattempt as [_ Hc].
  apply Forall_app in Hquiet as [Hfront _].
  simpl in Hc. rewrite Forall_singleton in Hc.
  assert (Hback : Forall (fun c => is_rollback c = false) (calls relookup)).
  { destruct Hrelookup as [-> | (original & out'' & _ & _ & ->)];
      by repeat constructor. }
  intros Hin.
  assert (s = s0) as ->.
  { unfold calls in Hin.
    rewrite !fmap_cons, !fmap_app, !fmap_cons, fmap_nil in Hin.
    rewrite !elem_of_cons, !elem_of_app, !elem_of_cons, elem_of_nil in Hin.
    destruct Hin as [Hin | [[Hin | [Hin | []]] | [Hin | Hin]]].
    - discriminate.
    - by apply (not_rollback_in front) in Hin.
    - simpl in Hin. subst c. discriminate.
    - simpl in Hin. congruence.
    - by apply (not_rollback_in relookup) in Hin. }
  exists ((QueryOneOrNone s0 model_class args (popped_key_fields cls kw), out)
          :: front), c, detail, out', relookup.
  split; [by rewrite <- app_assoc|]. split; [done|].
  split; [by constructor | done].
Qed.

(** X6: [session.rollback()] is called only right after a call of the
    insert attempt (the constructor or [add]) threw an IntegrityError, and
    at most once: in any run of [_get_or_create] or of [_create] whose log
    has a rollback, the log is calls without rollback, that failed call,
    the rollback, and calls without rollback. *)
Theorem rollback_only_after_integrity_error cls model_class args kw st s :
  (Rollback s ∈ calls (_get_or_create cls model_class args kw st).2 →
   follows_integrity_error s (_get_or_create cls model_class args kw st).2)
  ∧ (Rollback s ∈ calls (_create cls model_class args kw st).2 →
     follows_integrity_error s (_create cls model_class args kw st).2).
Proof.
  split; [apply get_or_create_rollback|].
  destruct (create_log cls model_class args kw st)
    as (out & middle & tail & -> & Hmiddle & Htail).
  assert (Hquiet : Forall (fun c => is_rollback c = false) (calls tail)).
  { eapply Forall_impl; [exact Htail|]. by intros c [? _]. }
  intros Hin. unfold calls in Hin. rewrite fmap_cons, fmap_app in Hin.
  rewrite elem_of_cons, elem_of_app in Hin.
  destruct Hin as [Hin | [Hin | Hin]];
    [discriminate | | by apply (not_rollback_in tail) in Hin].
  destruct Hmiddle as [-> | [w1 ->]]; [by apply elem_of_nil in Hin|].
  destruct (get_or_create_rollback _ _ _ _ _ _ Hin)
    as (front & c & detail & out' & back & -> & Hc & Hfront & Hback).
  exists ((Construct model_class args kw, out) :: front), c, detail, out',
    (back ++ tail).
  split; [by rewrite <- app_assoc|]. split; [done|].
  split; [by constructor|].
  unfold calls. rewrite fmap_app. by apply Forall_app.
Qed.

Lemma not_query_one_in (log : list event) s m p :
  Forall (fun c => is_insert_call c = true) (calls log) →
  QueryOne s m p ∉ calls log.
Proof.
  intros Hall Hin. rewrite Forall_forall in Hall.
  by specialize (Hall _ Hin).
Qed.

Lemma get_or_create_relookup cls model_class args kw st s m p :
  QueryOne s m p ∈ calls (_get_or_create cls model_class args kw st).2 →
  ∃ original,
    _original_params st = Some original
    ∧ p = get_or_create_params cls original
    ∧ p ≠ ∅ ∧ m = model_class
    ∧ sqlalchemy_session (_meta cls) = Some s.
Proof.
  destruct (get_or_create_log cls model_class args kw st)
    as [-> | (s0 & out & attempt & recovery & Hs & -> & Hattempt & Hrec)].
  { intros Hin. by apply elem_of_nil in Hin. }
  intros Hin. unfold calls in Hin.
  rewrite fmap_cons, fmap_app, elem_of_cons, elem_of_app in Hin.
  destruct Hin as [Hin | [Hin | Hin]];
    [discriminate | by apply (not_query_one_in attempt) in Hin |].
  destruct Hrec
    as [-> | (front & c & detail & out' & relookup & _ & -> & Hrelookup)];
    [by apply elem_of_nil in Hin|].
  rewrite fmap_cons, elem_of_cons in Hin.
  destruct Hin as [Hin | Hin]; [discriminate|].
  destruct Hrelookup as [-> | (original & out'' & Hstored & Hne & ->)];
    [by apply elem_of_nil in Hin|].
  apply list_elem_of_singleton in Hin. simpl in Hin.
  injection Hin as -> -> ->. by exists original.
Qed.

Lemma create_relookup cls model_class args kw st s m p :
  QueryOne s m p ∈ calls (_create cls model_class args kw st).2 →
  ∃ original,
    _original_params st = Some original
    ∧ p = get_or_create_params cls original
    ∧ p ≠ ∅ ∧ m = model_class
    ∧ sqlalchemy_session (_meta cls) = Some s.
Proof.
  destruct (create_log cls model_class args kw st)
    as (out & middle & tail & -> & Hmiddle & Htail).
  intros Hin. unfold calls in Hin.
  rewrite fmap_cons, fmap_app, elem_of_cons, elem_of_app in Hin.
  destruct Hin as [Hin | [Hin | Hin]]; [discriminate | |].
  - destruct Hmiddle as [-> | [w1 ->]]; [by apply elem_of_nil in Hin|].
    by apply get_or_create_relookup in Hin.
  - rewrite Forall_forall in Htail. by destruct (Htail _ Hin).
Qed.

(** X7: the second lookup, [one()], is never made without a filter and
    never with the resolved values: whenever a run of [_get_or_create] or
    of [_create] issues it, it is on the model class and the configured
    session, and its filter is not empty and holds exactly the entries of
    the stored original parameters whose name is a key field; the
    positional args are not part of it. *)
Theorem relookup_uses_original_params cls model_class args kw st s m p :
  QueryOne s m p ∈ calls (_get_or_create cls model_class args kw st).2
  ∨ QueryOne s m p ∈ calls (_create cls model_class args kw st).2 →
  ∃ original,
    _original_params st = Some original
    ∧ p = get_or_create_params cls original
    ∧ p ≠ ∅ ∧ m = model_class
    ∧ sqlalchemy_session (_meta cls) = Some s
    ∧ ∀ k v, p !! k = Some v
             ↔ k ∈ sqlalchemy_get_or_create (_meta cls)
               ∧ original !! k = Some v.
Proof.
  intros Hin.
  assert (∃ original,
            _original_params st = Some original
            ∧ p = get_or_create_params cls original
            ∧ p ≠ ∅ ∧ m = model_class
            ∧ sqlalchemy_session (_meta cls) = Some s)
    as (original & Hstored & -> & Hne & -> & Hs).
  { destruct Hin as [Hin | Hin];
      [by apply get_or_create_relookup in Hin
      | by apply create_relookup in Hin]. }
  exists original. repeat (split; [done|]).
  intros k v. rewrite get_or_create_params_lookup.
  case_decide; [tauto|]. split; [discriminate | tauto].
Qed.

(** ** The persistence step *)

(** [_create], once it has the object and lines 106-107 have returned. *)
Lemma create_after_tracking
    cls model_class args kw st s o st1 before tracked (w3 : W) :
  sqlalchemy_session (_meta cls) = Some s →
  obtained cls model_class args kw st o st1 before →
  tracked_from s o st1 tracked w3 →
  _create cls model_class args kw st
  = let '(r, st4, policy) :=
      apply_persistence s (sqlalchemy_session_persistence (_meta cls))
        (moved st1 w3) in
    (match r with
     | Returns _ => Returns o
     | Raises e => Raises e
     end,
     st4,
     before
     ++ (Contains s o, Gave (RBool tracked))
     :: (if tracked then [] else [(Add s o, Gave RNone)]) ++ policy).
Proof.
  intros Hs (constructed & w1 & middle & Hnew & Hobtain & ->)
    (w2 & Htracked & Hadd).
  rewrite create_eq. unfold bind at 1, invoke at 1. rewrite Hnew, Hs.
  fold (moved st w1).
  rewrite (bind_returns _ _ _ _ _ _ Hobtain).
  rewrite (track_and_persist_run s _ o st1 tracked w2 w3 Htracked Hadd).
  by destruct (apply_persistence s _ _) as [[r st4] policy].
Qed.

(** X14: the policy is compared with [==] to the two constants and
    nothing else is looked at.  Once [_create] has its object and lines
    106-107 have returned, leaving the world [w3]: with ['flush'] it calls
    [session.flush()] in [w3], with ['commit'] it calls [session.commit()]
    in [w3], and the run returns the object if that call returns and
    raises what it raises; with any other value, valid or not, it calls
    nothing more and returns the object: no flush, no commit, no error. *)
Theorem flush_and_commit_follow_the_policy
    cls model_class args kw st s o st1 before tracked (w3 : W) :
  sqlalchemy_session (_meta cls) = Some s →
  obtained cls model_class args kw st o st1 before →
  tracked_from s o st1 tracked w3 →
  let policy := sqlalchemy_session_persistence (_meta cls) in
  let front :=
    before
    ++ (Contains s o, Gave (RBool tracked))
    :: (if tracked then [] else [(Add s o, Gave RNone)]) in
  let ended (c : call) (r : res unit) (w4 : W) :=
    (match r with
     | Returns _ => Returns o
     | Raises e => Raises e
     end,
     moved st1 w4,
     front ++ [(c, match r with
                   | Returns _ => Gave RNone
                   | Raises e => Threw e
                   end)]) in
  (policy = VStr "flush" →
     ∀ r (w4 : W), session_flush s w3 = (r, w4) →
       _create cls model_class args kw st = ended (Flush s) r w4)
  ∧ (policy = VStr "commit" →
       ∀ r (w4 : W), session_commit s w3 = (r, w4) →
         _create cls model_class args kw st = ended (Commit s) r w4)
  ∧ (policy ≠ VStr "flush" → policy ≠ VStr "commit" →
       _create cls model_class args kw st
       = (Returns o, moved st1 w3, front)).
Proof.
  intros Hs Hobtained Htracked policy front ended.
  rewrite (create_after_tracking _ _ _ _ _ _ _ _ _ _ _
             Hs Hobtained Htracked).
  fold policy. subst front ended. unfold apply_persistence, invoke, ret.
  pose proof (py_eq_VStr policy "flush") as Hflush.
  pose proof (py_eq_VStr policy "commit") as Hcommit.
  fold SESSION_PERSISTENCE_FLUSH in Hflush.
  fold SESSION_PERSISTENCE_COMMIT in Hcommit.
  split; [|split].
  - intros Hp r w4 Hcall. apply Hflush in Hp. rewrite Hp. simpl.
    rewrite Hcall. destruct r as [[] | e]; simpl;
      by rewrite <- app_assoc.
  - intros Hp r w4 Hcall.
    assert (py_eq policy SESSION_PERSISTENCE_FLUSH = false) as ->
      by (rewrite Hp; reflexivity).
    apply Hcommit in Hp. rewrite Hp. simpl.
    rewrite Hcall. destruct r as [[] | e]; simpl;
      by rewrite <- app_assoc.
  - intros Hnot_flush Hnot_commit.
    destruct (py_eq policy SESSION_PERSISTENCE_FLUSH) eqn:Hf;
      [by destruct Hnot_flush; apply Hflush|].
    destruct (py_eq policy SESSION_PERSISTENCE_COMMIT) eqn:Hc;
      [by destruct Hnot_commit; apply Hcommit|].
    simpl. by rewrite !app_nil_r.
Qed.

Lemma ends_with_policy_quiet {A} (result : res A) (log : list event) :
  Forall (fun c => is_flush_or_commit c = false) (calls log) →
  ends_with_policy result log.
Proof.
  intros Hquiet. exists log, []. rewrite app_nil_r. by split; [|split; [|left]].
Qed.

Lemma ends_with_policy_app {A} (result : res A) (front log : list event) :
  Forall (fun c => is_flush_or_commit c = false) (calls front) →
  ends_with_policy result log →
  ends_with_policy result (front ++ log).
Proof.
  intros Hfront (before & last & -> & Hbefore & Hlast).
  exists (front ++ before), last. split; [by rewrite app_assoc|].
  split; [|done]. unfold calls. rewrite fmap_app. by apply Forall_app.
Qed.

Lemma persist_ends_with_policy s p o st r st' log :
  bind (apply_persistence s p) (fun _ => ret o) st = (r, st', log) →
  ends_with_policy r log.
Proof.
  unfold bind, ret, apply_persistence, invoke.
  destruct (py_eq p SESSION_PERSISTENCE_FLUSH).
  - destruct (session_flush s (world st)) as [[[] | e] w2]; simpl;
      intros [= <- _ <-].
    + exists [], [(Flush s, Gave RNone)].
      split; [done|]. split; [constructor|]. right.
      eexists _, _. split; [done|]. split; [done|]. by exists o.
    + exists [], [(Flush s, Threw e)].
      split; [done|]. split; [constructor|]. right.
      by eexists _, _.
  - destruct (py_eq p SESSION_PERSISTENCE_COMMIT).
    + destruct (session_commit s (world st)) as [[[] | e] w2]; simpl;
        intros [= <- _ <-].
      * exists [], [(Commit s, Gave RNone)].
        split; [done|]. split; [constructor|]. right.
        eexists _, _. split; [done|]. split; [done|]. by exists o.
      * exists [], [(Commit s, Threw e)].
        split; [done|]. split; [constructor|]. right.
        by eexists _, _.
    + simpl. intros [= <- _ <-]. apply ends_with_policy_quiet. constructor.
Qed.

Lemma track_and_persist_ends_with_policy s p o st r st' log :
  track_and_persist s p o st = (r, st', log) →
  ends_with_policy r log.
Proof.
  unfold track_and_persist. unfold bind at 1, invoke at 1.
  destruct (session_contains s o (world st)) as [[tracked | e] w1].
  2: { simpl. intros Heq. inversion Heq; subst. apply ends_with_policy_quiet.
       by repeat constructor. }
  destruct tracked; simpl.
  - unfold bind at 1, ret at 1.
    match goal with
    | |- context [bind (apply_persistence s p) ?k ?st1] =>
        pose proof (persist_ends_with_policy s p o st1) as Hpolicy;
        destruct (bind (apply_persistence s p) k st1) as [[r2 st2] log2]
    end.
    intros Heq. inversion Heq; subst.
    apply (ends_with_policy_app _ [(Contains s o, Gave (RBool true))]);
      [by repeat constructor | by eapply Hpolicy].
  - unfold bind at 1, invoke at 1. simpl.
    destruct (session_add s o w1) as [[[] | e] w2]; simpl.
    2: { intros Heq. inversion Heq; subst. apply ends_with_policy_quiet.
         simpl. by repeat constructor. }
    match goal with
    | |- context [bind (apply_persistence s p) ?k ?st1] =>
        pose proof (persist_ends_with_policy s p o st1) as Hpolicy;
        destruct (bind (apply_persistence s p) k st1) as [[r2 st2] log2]
    end.
    intros Heq. inversion Heq; subst.
    apply (ends_with_policy_app _ [(Contains s o, Gave (RBool false));
                                   (Add s o, Gave RNone)]);
      [by repeat constructor | by eapply Hpolicy].
Qed.

(** X5: in every run of [_create], returning or raising, a flush or a
    commit is issued at most once and as the last call; the run returns
    when it returned, and when it threw, what it threw is what the run
    raises.  So a run that raises anything else has issued no flush and no
    commit. *)
Theorem flush_or_commit_comes_last cls model_class args kw st :
  ends_with_policy (_create cls model_class args kw st).1.1
    (_create cls model_class args kw st).2.
Proof.
  destruct (_create cls model_class args kw st) as [[r st'] log] eqn:Hrun.
  simpl. revert Hrun.
  rewrite create_eq. unfold bind at 1, invoke at 1.
  destruct (model_new model_class args kw (world st)) as [[c | e] w1].
  2: { intros Heq. inversion Heq; subst. apply ends_with_policy_quiet.
       by repeat constructor. }
  destruct (sqlalchemy_session (_meta cls)) as [s|].
  2: { intros Heq. inversion Heq; subst. apply ends_with_policy_quiet.
       by repeat constructor. }
  fold (moved st w1). unfold bind.
  pose proof (obtain_emits cls model_class args kw c (moved st w1)) as Hmid.
  destruct (obtain cls model_class args kw c (moved st w1))
    as [[[o | e] st1] middle]; simpl in Hmid.
  - pose proof (track_and_persist_ends_with_policy s
                  (sqlalchemy_session_persistence (_meta cls)) o st1)
      as Htail.
    destruct (track_and_persist s _ o st1) as [[r2 st2] tail].
    specialize (Htail _ _ _ eq_refl).
    intros Heq. inversion Heq; subst.
    apply (ends_with_policy_app _
             ((Construct model_class args kw, Gave (RObj c)) :: middle));
      [|done].
    simpl. constructor; [done|].
    eapply Forall_impl; [exact Hmid|].
    intros c'. apply get_or_create_call_no_flush_or_commit.
  - intros Heq. inversion Heq; subst.
    apply ends_with_policy_quiet. simpl. constructor; [done|].
    eapply Forall_impl; [exact Hmid|].
    intros c'. apply get_or_create_call_no_flush_or_commit.
Qed.

(** ** The key-field loop, again *)

Lemma pop_key_fields_complete cls (fields : list string) (acc kw : kwargs) :
  NoDup fields → (∀ f, f ∈ fields → is_Some (kw !! f)) →
  ∃ key_fields rest,
    pop_key_fields cls fields acc kw = Returns (key_fields, rest).
Proof.
  revert acc kw. induction fields as [| f fields IH]; intros acc kw Hnd Hall.
  - by eexists _, _.
  - apply NoDup_cons in Hnd as [Hfresh Hnd]. simpl.
    destruct (Hall f) as [v ->]; [apply list_elem_of_here|].
    apply IH; [done|]. intros g Hg.
    rewrite lookup_delete_ne by (intros ->; done).
    apply Hall. by apply list_elem_of_further.
Qed.

Lemma pop_key_fields_factory_error cls (fields : list string)
    (acc kw : kwargs) e :
  pop_key_fields cls fields acc kw = Raises e →
  ∃ field, field ∈ fields
           ∧ e = FactoryError (missing_field_message cls field).
Proof.
  revert acc kw. induction fields as [| f fields IH]; intros acc kw; simpl.
  - discriminate.
  - destruct (kw !! f).
    + intros Hpop. destruct (IH _ _ Hpop) as (field & Hin & ->).
      exists field. split; [by apply list_elem_of_further | done].
    + intros [= <-]. exists f. split; [apply list_elem_of_here | done].
Qed.

(** X10: [_get_or_create] stops with FactoryError, before any call,
    exactly when the configured key fields are not all distinct names
    present in the resolved kwargs: a missing field, but also a field
    listed twice in [sqlalchemy_get_or_create], fails every call, whatever
    the kwargs.  The message names a configured field. *)
Theorem factory_error_iff_fields_not_poppable cls model_class args kw st :
  (∃ msg, _get_or_create cls model_class args kw st
          = (Raises (FactoryError msg), st, []))
  ↔ ¬ (NoDup (sqlalchemy_get_or_create (_meta cls))
       ∧ ∀ f, f ∈ sqlalchemy_get_or_create (_meta cls) → is_Some (kw !! f)).
Proof.
  split.
  - intros [msg Hrun] [Hnd Hall].
    destruct (pop_key_fields_complete cls _ ∅ kw Hnd Hall)
      as (key_fields & rest & Hpop).
    revert Hrun. unfold _get_or_create.
    rewrite Hpop, bind_lift_returns. simpl. unfold session_method.
    destruct (sqlalchemy_session (_meta cls)) as [s|]; [|discriminate].
    unfold bind, invoke.
    destruct (one_or_none s model_class args key_fields (world st))
      as [[instance | e] w1]; [|discriminate].
    by destruct (try_except _ _ _) as [[r st2] log2].
  - intros Hbad.
    destruct (pop_key_fields cls (sqlalchemy_get_or_create (_meta cls)) ∅ kw)
      as [[key_fields rest] | e] eqn:Hpop.
    + destruct Hbad.
      destruct (pop_key_fields_returns _ _ _ _ _ _ Hpop) as (? & ? & _).
      by split.
    + destruct (pop_key_fields_factory_error _ _ _ _ _ Hpop)
        as (field & _ & ->).
      eexists. by apply get_or_create_missing_field.
Qed.

(** X11: when the loop of lines 59-66 ends normally it has split the
    resolved kwargs in two: [key_fields] holds the entries whose name is a
    key field, what is left of [kwargs] holds the others, nothing is lost
    and nothing is in both. *)
Theorem pop_key_fields_splits_kwargs cls kw key_fields rest :
  pop_key_fields cls (sqlalchemy_get_or_create (_meta cls)) ∅ kw
    = Returns (key_fields, rest) →
  key_fields ∪ rest = kw
  ∧ key_fields ##ₘ rest
  ∧ (∀ k, is_Some (key_fields !! k)
          ↔ k ∈ sqlalchemy_get_or_create (_meta cls)).
Proof.
  intros Hpop.
  destruct (pop_key_fields_returns _ _ _ _ _ _ Hpop)
    as (_ & Hall & Hkey & Hrest).
  split; [|split].
  - apply map_eq. intros k. rewrite lookup_union, Hkey, Hrest.
    case_decide.
    + by destruct (kw !! k).
    + rewrite lookup_empty. by destruct (kw !! k).
  - apply map_disjoint_spec. intros k x y Hx Hy.
    rewrite Hkey in Hx. rewrite Hrest in Hy.
    case_decide; [discriminate|]. by rewrite lookup_empty in Hx.
  - intros k. rewrite Hkey. case_decide.
    + split; [done|]. intros _. by apply Hall.
    + rewrite lookup_empty. split; [by intros [? ?] | done].
Qed.

(** ** The stored original parameters *)

Lemma keeps_ret {A} (a : A) : keeps (ret a : M W A).
Proof. by intros st. Qed.

Lemma keeps_raise {A} e : keeps (raise e : M W A).
Proof. by intros st. Qed.

Lemma keeps_lift {A} (r : res A) : keeps (lift r : M W A).
Proof. by intros st. Qed.

Lemma keeps_invoke {A} c (f : W → res A * W) shown :
  keeps (invoke c f shown).
Proof. intros st. unfold invoke. by destruct (f (world st)). Qed.

Lemma keeps_bind {A B} (m : M W A) (f : A → M W B) :
  keeps m → (∀ a, keeps (f a)) → keeps (bind m f).
Proof.
  intros Hm Hf st. unfold bind. specialize (Hm st).
  destruct (m st) as [[[a | e] st1] log1]; [|done].
  specialize (Hf a st1). destruct (f a st1) as [[r st2] log2].
  simpl in *. congruence.
Qed.

Lemma keeps_try_except {A} (m : M W A) h :
  keeps m → (∀ e handler, h e = Some handler → keeps handler) →
  keeps (try_except m h).
Proof.
  intros Hm Hh st. unfold try_except. specialize (Hm st).
  destruct (m st) as [[[a | e] st1] log1]; [done|].
  destruct (h e) as [handler|] eqn:He; [|done].
  specialize (Hh e handler He st1).
  destruct (handler st1) as [[r st2] log2]. simpl in *. congruence.
Qed.

Lemma get_or_create_keeps cls model_class args kw :
  keeps (_get_or_create cls model_class args kw).
Proof.
  unfold _get_or_create. apply keeps_bind; [apply keeps_lift|].
  intros popped. unfold session_method.
  destruct (sqlalchemy_session (_meta cls)) as [s|]; [|apply keeps_raise].
  apply keeps_bind; [apply keeps_invoke|]. intros instance.
  apply keeps_try_except.
  - intros st. apply create_if_missing_keeps.
  - intros e handler. destruct e; try discriminate. intros [= <-].
    unfold recover. apply keeps_bind; [apply keeps_invoke|]. intros _.
    apply keeps_bind.
    { intros st. unfold read_original_params.
      by destruct (_original_params st) eqn:Hstored. }
    intros original.
    destruct (dict_truthy (get_or_create_params cls original));
      [|apply keeps_raise].
    apply keeps_try_except; [apply keeps_invoke|].
    intros e' handler. destruct e'; try discriminate.
    intros [= <-]. apply keeps_raise.
Qed.

Lemma create_keeps cls model_class args kw :
  keeps (_create cls model_class args kw).
Proof.
  unfold _create. apply keeps_bind; [apply keeps_invoke|].
  intros constructed.
  destruct (sqlalchemy_session (_meta cls)) as [s|]; [|apply keeps_raise].
  apply keeps_bind.
  { destruct (sqlalchemy_get_or_create (_meta cls));
      [apply keeps_ret | apply get_or_create_keeps]. }
  intros o. unfold track_and_persist.
  apply keeps_bind; [apply keeps_invoke|]. intros tracked.
  apply keeps_bind.
  { destruct tracked; simpl; [apply keeps_ret | apply keeps_invoke]. }
  intros _. apply keeps_bind; [|intros _; apply keeps_ret].
  unfold apply_persistence.
  destruct (py_eq _ SESSION_PERSISTENCE_FLUSH); [apply keeps_invoke|].
  destruct (py_eq _ SESSION_PERSISTENCE_COMMIT);
    [apply keeps_invoke | apply keeps_ret].
Qed.

(** X12: neither [_get_or_create] nor [_create] assigns
    [cls._original_params]: whatever a run does, and whether it returns or
    raises, the stored parameters are afterwards what they were before;
    they are written by [_generate] only, and never cleared. *)
Theorem methods_keep_original_params cls model_class args kw st :
  _original_params (_get_or_create cls model_class args kw st).1.2
  = _original_params st
  ∧ _original_params (_create cls model_class args kw st).1.2
    = _original_params st.
Proof.
  split; [apply get_or_create_keeps | apply create_keeps].
Qed.

(** X13: [_generate] overwrites the stored parameters with [params]
    before it delegates.  The delegated procedure therefore runs the same
    whatever was stored before; unless it assigns the attribute itself,
    [params] is still stored when the pass is over; and when what it does
    is call [_create], every conflict re-lookup of the pass is filtered by
    [params] restricted to the key fields. *)
Theorem generate_stores_params {A} cls
    (super_generate : string → kwargs → M W A) strategy params st :
  keeps (super_generate strategy params) →
  _original_params (_generate cls super_generate strategy params st).1.2
  = Some params
  ∧ (∀ old,
       _generate cls super_generate strategy params
         {| world := world st; _original_params := old |}
       = _generate cls super_generate strategy params st)
  ∧ (∀ model_class args kw s m p,
       QueryOne s m p
       ∈ calls (_generate cls (fun _ _ => _create cls model_class args kw)
                  strategy params st).2 →
       p = get_or_create_params cls params).
Proof.
  intros Hkeeps. split; [|split].
  - unfold _generate. by rewrite Hkeeps.
  - done.
  - intros model_class args kw s m p Hin. unfold _generate in Hin.
    destruct (create_relookup _ _ _ _ _ _ _ _ Hin)
      as (original & [= <-] & -> & _).
    done.
Qed.

End Further.

(** ** The further properties at work on the scripted ORM *)

Module FurtherExamples.

Import Scripted.




Lemma pop_of_ann :
  pop_key_fields (user_factory VNone) ["name"] ∅ ann
  = Returns (name_ann, age_only).
Proof. vm_compute. reflexivity. Qed.

Lemma conflict_calls :
  calls (_get_or_create (user_factory VNone) "User" [] ann
           (start conflict (Some ann))).2
  = [QueryOneOrNone the_session "User" [] name_ann;
     Construct "User" [] name_ann;
     Add the_session 1%nat;
     Rollback the_session;
     QueryOne the_session "User" name_ann].
Proof. vm_compute. reflexivity. Qed.

Lemma create_without_session_witness :
  _create no_session_factory "User" [] ann (start empty_db None)
  = (Raises (RuntimeError "No session provided."), start empty_db None,
     [(Construct "User" [] ann, Gave (RObj 1%nat))]).
Proof.
  destruct (create_without_session no_session_factory "User" [] ann
              (start empty_db None) eq_refl) as [Hreturned _].
  exact (Hreturned 1%nat empty_db eq_refl).
Defined.

Lemma create_reuses_existing_row_witness :
  _create (user_factory VNone) "User" [] ann (start row_exists None)
  = (Returns 7%nat, start row_exists None,
     [(Construct "User" [] ann, Gave (RObj 1%nat));
      (QueryOneOrNone the_session "User" [] name_ann, Gave (RObj 7%nat));
      (Contains the_session 7%nat, Gave (RBool true))]).
Proof.
  rewrite (create_reuses_existing_row (user_factory VNone) "User" [] ann
             (start row_exists None) the_session name_ann age_only
             1%nat 7%nat row_exists row_exists row_exists);
    [reflexivity | discriminate | reflexivity | exact pop_of_ann
    | reflexivity | reflexivity | reflexivity | reflexivity].
Defined.

Lemma create_inserts_object_built_from_key_fields_witness :
  _create (user_factory VNone) "User" [] ann (start empty_db None)
  = (Returns 1%nat, start (track 1%nat empty_db) None,
     [(Construct "User" [] ann, Gave (RObj 1%nat));
      (QueryOneOrNone the_session "User" [] name_ann, Gave RNone);
      (Construct "User" [] name_ann, Gave (RObj 1%nat));
      (Add the_session 1%nat, Gave RNone);
      (Contains the_session 1%nat, Gave (RBool true))]).
Proof.
  rewrite (create_inserts_object_built_from_key_fields
             (user_factory VNone) "User" [] ann (start empty_db None)
             the_session name_ann age_only 1%nat 1%nat true
             empty_db empty_db empty_db (track 1%nat empty_db)
             (track 1%nat empty_db) (track 1%nat empty_db));
    [reflexivity | discriminate | reflexivity | exact pop_of_ann
    | reflexivity | reflexivity | reflexivity | reflexivity
    | reflexivity | reflexivity].
Defined.


Lemma rollback_only_after_integrity_error_witness :
  follows_integrity_error the_session
    (_get_or_create (user_factory VNone) "User" [] ann
       (start conflict (Some ann))).2.
Proof.
  destruct (rollback_only_after_integrity_error (user_factory VNone) "User"
              [] ann (start conflict (Some ann)) the_session)
    as [Hfollows _].
  apply Hfollows. rewrite conflict_calls.
  do 3 apply list_elem_of_further. apply list_elem_of_here.
Defined.

Lemma relookup_uses_original_params_witness :
  ∃ original,
    _original_params (start conflict (Some ann)) = Some original
    ∧ name_ann = get_or_create_params (user_factory VNone) original.
Proof.
  destruct (relookup_uses_original_params (user_factory VNone) "User" [] ann
              (start conflict (Some ann)) the_session "User" name_ann)
    as (original & Hstored & Hparams & _).
  - left. rewrite conflict_calls.
    do 4 apply list_elem_of_further. apply list_elem_of_here.
  - by exists original.
Defined.



Lemma pop_key_fields_splits_kwargs_witness :
  name_ann ∪ age_only = ann ∧ name_ann ##ₘ age_only.
Proof.
  destruct (pop_key_fields_splits_kwargs (user_factory VNone) ann
              name_ann age_only pop_of_ann) as (Hunion & Hdisjoint & _).
  by split.
Defined.

Lemma generate_stores_params_witness :
  _original_params
    (_generate (user_factory VNone)
       (fun _ _ => _create (user_factory VNone) "User" [] ann)
       "create" ann (start conflict (Some age_only))).1.2
  = Some ann.
Proof.
  destruct (generate_stores_params (user_factory VNone)
              (fun _ _ => _create (user_factory VNone) "User" [] ann)
              "create" ann (start conflict (Some age_only)))
    as [Hstored _].
  - apply create_keeps.
  - exact Hstored.
Defined.

Lemma flush_and_commit_follow_the_policy_witness :
  _create (user_factory (VStr "flush")) "User" [] ann (start empty_db None)
  = (Returns 1%nat, start (track 1%nat empty_db) None,
     [(Construct "User" [] ann, Gave (RObj 1%nat));
      (QueryOneOrNone the_session "User" [] name_ann, Gave RNone);
      (Construct "User" [] name_ann, Gave (RObj 1%nat));
      (Add the_session 1%nat, Gave RNone);
      (Contains the_session 1%nat, Gave (RBool true));
      (Flush the_session, Gave RNone)]).
Proof.
  destruct (flush_and_commit_follow_the_policy
              (user_factory (VStr "flush")) "User" [] ann
              (start empty_db None) the_session 1%nat
              (start (track 1%nat empty_db) None)
              [(Construct "User" [] ann, Gave (RObj 1%nat));
               (QueryOneOrNone the_session "User" [] name_ann, Gave RNone);
               (Construct "User" [] name_ann, Gave (RObj 1%nat));
               (Add the_session 1%nat, Gave RNone)]
              true (track 1%nat empty_db))
    as [Hflush _].
  - reflexivity.
  - exists 1%nat, empty_db,
      [(QueryOneOrNone the_session "User" [] name_ann, Gave RNone);
       (Construct "User" [] name_ann, Gave (RObj 1%nat));
       (Add the_session 1%nat, Gave RNone)].
    split; [reflexivity|]. split; [vm_compute; reflexivity | reflexivity].
  - exists (track 1%nat empty_db). split; reflexivity.
  - rewrite (Hflush eq_refl (Returns tt) (track 1%nat empty_db) eq_refl).
    reflexivity.
Defined.

End FurtherExamples.
